(** * Text summarizer and FAQ generator: the chunker, the model client and
      the generation orchestrator of [app.py], embedded in Rocq.

    Python values are modelled the way [app.py] uses them: a [str] is a
    sequence of Unicode code points, an [int] is an unbounded integer, the
    JSON documents returned by the model server are trees of Python values,
    and an exception is a value that travels through an error monad.  The
    model server (reached through [requests.post]) is an arbitrary state
    machine; everything the program does to the outside world is recorded,
    in order, in a trace of events. *)

From Stdlib Require Import String Ascii DecimalString.
From Stdlib Require Import ZArith NArith Bool Lia List.
Import ListNotations.

Set Warnings "-register-all,-abstract-large-number".
Local Open Scope Z_scope.

(* ===================================================================== *)
(** ** Python strings *)
(* ===================================================================== *)

(** A character is a Unicode code point, a string a list of them, so that
    [len] counts code points as Python does. *)
Definition char := N.
Definition str := list char.

(** An ASCII literal of the source. *)
Definition lit (s : string) : str := map N_of_ascii (list_ascii_of_string s).

Definition LF : str := [10%N].
Definition DOT : char := 46%N.
Definition BANG : char := 33%N.
Definition QUESTION : char := 63%N.

(** U+274C, the cross mark that starts every failure message. *)
Definition CROSS : str := [10060%N].
(** U+1F4DD, the memo sign of the progress message. *)
Definition MEMO : str := [128221%N].

(** [len(s)] *)
Definition len {A : Type} (s : list A) : Z := Z.of_nat (List.length s).

(** Truth value of a string: the empty string is false. *)
Definition truthy (s : str) : bool :=
  match s with [] => false | _ :: _ => true end.

Fixpoint str_eqb (a b : str) : bool :=
  match a, b with
  | [], [] => true
  | x :: a', y :: b' => N.eqb x y && str_eqb a' b'
  | _, _ => false
  end.

(** [s.startswith(prefix)] *)
Fixpoint startswith (s prefix : str) : bool :=
  match prefix, s with
  | [], _ => true
  | p :: prefix', c :: s' => N.eqb c p && startswith s' prefix'
  | _ :: _, [] => false
  end.

(** [needle in s] for two strings. *)
Fixpoint contains (s needle : str) : bool :=
  startswith s needle ||
  match s with
  | [] => false
  | _ :: s' => contains s' needle
  end.

(** [s.replace(old, new)] where [old] and [new] are single characters, the
    only way the source calls it. *)
Definition replace (old new : char) (s : str) : str :=
  map (fun c => if N.eqb c old then new else c) s.

(** [s.split(sep)] for a single-character separator: the pieces between the
    separators, empty pieces included; the empty string gives one empty
    piece. *)
Fixpoint split (sep : char) (s : str) : list str :=
  match s with
  | [] => [[]]
  | c :: s' =>
      if N.eqb c sep then [] :: split sep s'
      else match split sep s' with
           | p :: ps => (c :: p) :: ps
           | [] => [[c]]
           end
  end.

(** [str.isspace] on one character: the code points CPython classifies as
    whitespace. *)
Definition isspace (c : char) : bool :=
  ((9 <=? c) && (c <=? 13) || (28 <=? c) && (c <=? 32)
   || (c =? 133) || (c =? 160) || (c =? 5760)
   || (8192 <=? c) && (c <=? 8202)
   || (c =? 8232) || (c =? 8233) || (c =? 8239) || (c =? 8287)
   || (c =? 12288))%N.

Fixpoint lstrip (s : str) : str :=
  match s with
  | [] => []
  | c :: s' => if isspace c then lstrip s' else s
  end.

Definition rstrip (s : str) : str := rev (lstrip (rev s)).

(** [s.strip()] *)
Definition strip (s : str) : str := rstrip (lstrip s).

(** [sep.join(parts)] *)
Fixpoint join (sep : str) (parts : list str) : str :=
  match parts with
  | [] => []
  | [p] => p
  | p :: ps => p ++ sep ++ join sep ps
  end.

(** [str(n)] for an [int], as an f-string prints it. *)
Definition str_of_int (n : Z) : str := lit (NilZero.string_of_int (Z.to_int n)).

(** [s[:n]] for [0 <= n]. *)
Definition slice_to (s : str) (n : Z) : str := firstn (Z.to_nat n) s.

(* ===================================================================== *)
(** ** The text chunker *)
(* ===================================================================== *)

(** [text.replace('!', '.').replace('?', '.').split('.')] *)
Definition sentences (text : str) : list str :=
  split DOT (replace QUESTION DOT (replace BANG DOT text)).

(** One turn of the loop over the sentences; the state is
    [(chunks, current_chunk)]. *)
Definition chunk_step (max_chars : Z) (st : list str * str) (sentence : str)
  : list str * str :=
  let '(chunks, current_chunk) := st in
  if len current_chunk + len sentence <? max_chars then
    (chunks, current_chunk ++ sentence ++ [DOT])
  else
    ((if truthy current_chunk then chunks ++ [strip current_chunk] else chunks),
     sentence ++ [DOT]).

Definition chunk_loop (max_chars : Z) (sents : list str) : list str * str :=
  fold_left (chunk_step max_chars) sents ([], []).

(** [chunk_text(text, max_chars=2000)]; its only caller passes 2500. *)
Definition chunk_text (text : str) (max_chars : Z) : list str :=
  if len text <=? max_chars then [text]
  else
    let '(chunks, current_chunk) := chunk_loop max_chars (sentences text) in
    if truthy current_chunk then chunks ++ [strip current_chunk] else chunks.

(** The sentences packed in one chunk, read back by taking the trailing
    period off every sentence. *)
Definition unpack (chunk : str) : list str := removelast (split DOT chunk).

(** A buffer holding the sentences [g], each followed by its period. *)
Definition buffer_of (g : list str) : str :=
  concat (map (fun s => s ++ [DOT]) g).

(* ===================================================================== *)
(** ** Python values, exceptions and the HTTP interface *)
(* ===================================================================== *)

(** The values a decoded JSON document is made of.  Floats are kept as
    their text; nothing in the program computes with them. *)
Inductive pyval : Type :=
| PNone
| PBool (b : bool)
| PInt (n : Z)
| PFloat (text : str)
| PStr (s : str)
| PList (items : list pyval)
| PDict (items : list (str * pyval)).

(** Exceptions, by the classes the handlers of [inference] tell apart.  An
    exception that is both a connection error and a timeout (a connect
    timeout) is caught by the first handler and is a [ConnectionError]
    here. *)
Inductive exn : Type :=
| ConnectionError (detail : str)
| Timeout (detail : str)
| HTTPError (response_status : option Z) (detail : str)
| RequestError (detail : str)
| TypeError (culprit : pyval)
| AttributeError (culprit : pyval) (attribute : str)
| KeyError (key : str)
| ZeroDivisionError.

Inductive result (A : Type) : Type :=
| Ok (a : A)
| Exc (e : exn).
Arguments Ok {A} a.
Arguments Exc {A} e.

(** A [dict] keeps its items in insertion order, each key once. *)
Fixpoint dict_lookup (d : list (str * pyval)) (key : str) : option pyval :=
  match d with
  | [] => None
  | (k, v) :: d' => if str_eqb k key then Some v else dict_lookup d' key
  end.

(** [key in container] *)
Definition py_in (key : str) (container : pyval) : result bool :=
  match container with
  | PDict d =>
      Ok (match dict_lookup d key with Some _ => true | None => false end)
  | PList l =>
      Ok (existsb (fun v => match v with PStr s => str_eqb s key | _ => false end) l)
  | PStr s => Ok (contains s key)
  | _ => Exc (TypeError container)
  end.

(** [container[key]] for a string key *)
Definition py_getitem (container : pyval) (key : str) : result pyval :=
  match container with
  | PDict d =>
      match dict_lookup d key with
      | Some v => Ok v
      | None => Exc (KeyError key)
      end
  | _ => Exc (TypeError container)
  end.

(** [obj.get(key, default)]: only a dict has the method. *)
Definition py_get (obj : pyval) (key : str) (default : pyval) : result pyval :=
  match obj with
  | PDict d =>
      Ok (match dict_lookup d key with Some v => v | None => default end)
  | _ => Exc (AttributeError obj (lit "get"))
  end.

(** [a // b] *)
Definition floordiv (a b : Z) : result Z :=
  if b =? 0 then Exc ZeroDivisionError else Ok (a / b).

Record message : Type := { role : str; content : str }.

(** The two JSON bodies the client sends. *)
Inductive payload : Type :=
| ChatPayload (model : str) (messages : list message) (stream : bool)
| GeneratePayload (model : str) (prompt : str) (stream : bool).

Record request : Type := { url : str; json : payload; timeout : Z }.

(** A response: its status and what [response.json()] gives. *)
Record response : Type := { status_code : Z; json_body : result pyval }.

(** What the program cannot see into: the model server behind
    [requests.post], and the text [str(e)] of an exception.  The server is
    an arbitrary state machine: its answer to a request may depend on
    every request it has received before, and on nothing else. *)
Class Runtime : Type := {
  server : Type;
  requests_post : request -> server -> result response * server;
  str_of_exn : exn -> str
}.

(** A Streamlit placeholder, the progress sink of the two entry points.
    Its methods [markdown], [info] and [empty] display and return. *)
Inductive placeholder : Type := Placeholder (id : nat).

(** What the program does to the outside, in order.  [Call] marks the entry
    of [inference], one client call; [Sleep] is [time.sleep], in
    milliseconds. *)
Inductive event : Type :=
| Call (prompt model_name : str) (timeout : Z)
| Post (req : request)
| Markdown (p : placeholder) (body : str)
| Info (p : placeholder) (body : str)
| Empty (p : placeholder)
| Sleep (ms : Z).

Definition is_call (e : event) : bool :=
  match e with Call _ _ _ => true | _ => false end.
Definition is_post (e : event) : bool :=
  match e with Post _ => true | _ => false end.
Definition is_progress (e : event) : bool :=
  match e with Markdown _ _ | Info _ _ | Empty _ | Sleep _ => true | _ => false end.

(** The client calls, the HTTP requests and everything but the progress
    output of a trace. *)
Definition calls (t : list event) : list event := filter is_call t.
Definition posts (t : list event) : list event := filter is_post t.
Definition silent (t : list event) : list event :=
  filter (fun e => negb (is_progress e)) t.

(** [MODEL_SERVER_URL] *)
Definition MODEL_SERVER_URL : str := lit "http://localhost:11434".

(** A failure message is a string that starts with the cross mark. *)
Definition is_failure (v : pyval) : bool :=
  match v with PStr s => startswith s CROSS | _ => false end.

Section Program.

Context {R : Runtime}.

(** *** The monad of the program: server state, exceptions, trace *)

Definition M (A : Type) : Type := server -> result A * server * list event.

Definition ret {A : Type} (a : A) : M A := fun s => (Ok a, s, []).

Definition raise {A : Type} (e : exn) : M A := fun s => (Exc e, s, []).

Definition bind {A B : Type} (m : M A) (k : A -> M B) : M B :=
  fun s =>
    match m s with
    | (Ok a, s1, t1) => let '(r, s2, t2) := k a s1 in (r, s2, t1 ++ t2)
    | (Exc e, s1, t1) => (Exc e, s1, t1)
    end.

(** [try: body   except Exception as e: handler e] *)
Definition try_except {A : Type} (body : M A) (handler : exn -> M A) : M A :=
  fun s =>
    match body s with
    | (Ok a, s1, t1) => (Ok a, s1, t1)
    | (Exc e, s1, t1) => let '(r, s2, t2) := handler e s1 in (r, s2, t1 ++ t2)
    end.

Definition lift {A : Type} (r : result A) : M A := fun s => (r, s, []).

Definition emit (e : event) : M unit := fun s => (Ok tt, s, [e]).

(** [requests.post(url, json=payload, timeout=timeout)] *)
Definition post (req : request) : M response :=
  fun s => let '(r, s1) := requests_post req s in (r, s1, [Post req]).

End Program.

Declare Scope monad_scope.
Delimit Scope monad_scope with monad.
Notation "x <- c ;; k" := (bind c (fun x => k))
  (at level 61, c at next level, right associativity) : monad_scope.
Notation "c ;; k" := (bind c (fun _ => k))
  (at level 61, right associativity) : monad_scope.
Local Open Scope monad_scope.

Section Client.

Context {R : Runtime}.

(** [if process_placeholder: body] *)
Definition when_sink (sink : option placeholder) (body : placeholder -> M unit)
  : M unit :=
  match sink with
  | Some p => body p
  | None => ret tt
  end.

Fixpoint for_each {A : Type} (l : list A) (body : A -> M unit) : M unit :=
  match l with
  | [] => ret tt
  | x :: l' => body x ;; for_each l' body
  end.

(** The six steps shown while the model works: title and description. *)
Definition steps : list (str * str) :=
  [ ([128292%N] ++ lit " Tokenization", lit "Breaking text into tokens...");
    ([128269%N] ++ lit " Text Analysis", lit "Analyzing content structure...");
    ([129529%N] ++ lit " Preprocessing", lit "Cleaning and normalizing text...");
    ([127807%N] ++ lit " Stemming", lit "Reducing words to root forms...");
    ([129504%N] ++ lit " Neural Network", lit "Processing through trained layers...");
    ([10024%N] ++ lit " Post-processing", lit "Formatting final output...") ].

Definition show_processing_steps (step_placeholder : placeholder) : M unit :=
  for_each steps (fun '(title, desc) =>
    emit (Markdown step_placeholder
            (LF ++ lit "            <div class='process-step'>" ++ LF
             ++ lit "                " ++ title ++ lit ": " ++ desc ++ LF
             ++ lit "            </div>" ++ LF
             ++ lit "        ")) ;;
    emit (Sleep 800)).

(** [response.raise_for_status()] *)
Definition raise_for_status (r : response) : M unit :=
  if (400 <=? status_code r) && (status_code r <? 600)
  then raise (HTTPError (Some (status_code r)) [])
  else ret tt.

Definition ERROR : str := CROSS ++ lit " Error: ".

(** The [except] clauses of [inference], first match first. *)
Definition inference_handler (model_name : str) (timeout : Z) (e : exn)
  : M pyval :=
  match e with
  | ConnectionError _ =>
      ret (PStr (ERROR ++ lit "Model server is not running. Please start the model server."))
  | Timeout _ =>
      ret (PStr (ERROR ++ lit "Model inference timed out after "
                 ++ str_of_int timeout
                 ++ lit " seconds. Try reducing text length or number of questions."))
  | HTTPError st _ =>
      match st with
      | Some code =>
          if code =? 404
          then ret (PStr (ERROR ++ lit "Model '" ++ model_name
                          ++ lit "' not found in model repository."))
          else ret (PStr (ERROR ++ str_of_exn e))
      | None => raise (AttributeError PNone (lit "status_code"))
      end
  | _ => ret (PStr (ERROR ++ str_of_exn e))
  end.

Definition chat_request (prompt model_name : str) (timeout : Z) : request :=
  {| url := MODEL_SERVER_URL ++ lit "/api/chat";
     json := ChatPayload model_name
               [ {| role := lit "user"; content := prompt |} ] false;
     timeout := timeout |}.

Definition generate_request (prompt model_name : str) (timeout : Z) : request :=
  {| url := MODEL_SERVER_URL ++ lit "/api/generate";
     json := GeneratePayload model_name prompt false;
     timeout := timeout |}.

(** [inference(prompt, model_name, process_placeholder=None, timeout=1000)] *)
Definition inference (prompt model_name : str)
    (process_placeholder : option placeholder) (timeout : Z) : M pyval :=
  emit (Call prompt model_name timeout) ;;
  try_except
    (when_sink process_placeholder show_processing_steps ;;
     response <- post (chat_request prompt model_name timeout) ;;
     response <- (if status_code response =? 404
                  then post (generate_request prompt model_name timeout)
                  else ret response) ;;
     raise_for_status response ;;
     result <- lift (json_body response) ;;
     has_message <- lift (py_in (lit "message") result) ;;
     if has_message : bool then
       msg <- lift (py_getitem result (lit "message")) ;;
       lift (py_get msg (lit "content") (PStr []))
     else
       lift (py_get result (lit "response") (PStr [])))
    (inference_handler model_name timeout).

End Client.

(* ===================================================================== *)
(** ** The generation orchestrator *)
(* ===================================================================== *)

Section Orchestrator.

Context {R : Runtime}.

Definition length_instructions : list (str * str) :=
  [ (lit "short", lit "in 2-3 sentences");
    (lit "medium", lit "in 1 paragraph (4-6 sentences)");
    (lit "long", lit "in 2-3 paragraphs with key details") ].

Fixpoint instruction_lookup (d : list (str * str)) (key : str) : result str :=
  match d with
  | [] => Exc (KeyError key)
  | (k, v) :: d' => if str_eqb k key then Ok v else instruction_lookup d' key
  end.

Definition summary_prompt (instruction text : str) : str :=
  lit "Please provide a clear and concise summary of the following text "
  ++ instruction ++ lit ":" ++ LF
  ++ LF
  ++ lit "Text: " ++ text ++ LF
  ++ LF
  ++ lit "Summary:".

(** [generate_summary(text, summary_length, model_name, process_placeholder=None)] *)
Definition generate_summary (text summary_length model_name : str)
    (process_placeholder : option placeholder) : M pyval :=
  instruction <- lift (instruction_lookup length_instructions summary_length) ;;
  inference (summary_prompt instruction text) model_name process_placeholder 1000.

(** The prompt for one section of a long text. *)
Definition chunk_prompt (questions_per_chunk : Z) (chunk : str) : str :=
  lit "Based on the following text section, generate "
  ++ str_of_int questions_per_chunk
  ++ lit " frequently asked questions (FAQ) with their answers. Format each FAQ as:" ++ LF
  ++ LF
  ++ lit "Q: [Question]" ++ LF
  ++ lit "A: [Answer]" ++ LF
  ++ LF
  ++ lit "Text: " ++ chunk ++ LF
  ++ LF
  ++ lit "FAQ:".

(** The prompt for a short text. *)
Definition faq_prompt (num_questions : Z) (text : str) : str :=
  lit "Based on the following text, generate "
  ++ str_of_int num_questions
  ++ lit " frequently asked questions (FAQ) with their answers. Format each FAQ as:" ++ LF
  ++ LF
  ++ lit "Q: [Question]" ++ LF
  ++ lit "A: [Answer]" ++ LF
  ++ LF
  ++ lit "Text: " ++ text ++ LF
  ++ LF
  ++ lit "FAQ:".

Definition section_message (i total : Z) : str :=
  MEMO ++ lit " Processing section " ++ str_of_int (i + 1) ++ lit "/"
  ++ str_of_int total
  ++ lit "... This may take a while for long texts.".

(** The loop over the chunks, from index [i] on.  It ends with [inl all_faqs]
    when every chunk was processed and with [inr faq] when the body
    returned [faq] from inside the loop. *)
Fixpoint faq_loop (questions_per_chunk : Z) (model_name : str)
    (process_placeholder : option placeholder) (total : Z)
    (i : Z) (chunks : list str) (all_faqs : list str)
  : M (list str + pyval) :=
  match chunks with
  | [] => ret (inl all_faqs)
  | chunk :: rest =>
      when_sink process_placeholder
        (fun p => emit (Info p (section_message i total))) ;;
      faq <- inference (chunk_prompt questions_per_chunk chunk)
               model_name None 1000 ;;
      match faq with
      | PStr s =>
          if negb (startswith s CROSS) then
            faq_loop questions_per_chunk model_name process_placeholder total
              (i + 1) rest (all_faqs ++ [s])
          else
            when_sink process_placeholder (fun p => emit (Empty p)) ;;
            ret (inr faq)
      | _ => raise (AttributeError faq (lit "startswith"))
      end
  end.

(** [generate_faq_smart(text, num_questions, model_name, process_placeholder=None)] *)
Definition generate_faq_smart (text : str) (num_questions : Z)
    (model_name : str) (process_placeholder : option placeholder) : M pyval :=
  if len text >? 3000 then
    let chunks := chunk_text text 2500 in
    q <- lift (floordiv num_questions (len chunks)) ;;
    let questions_per_chunk := Z.max 2 q in
    r <- faq_loop questions_per_chunk model_name process_placeholder
           (len chunks) 0 chunks [] ;;
    match r with
    | inr faq => ret faq
    | inl all_faqs =>
        when_sink process_placeholder (fun p => emit (Empty p)) ;;
        let combined_faq := join (LF ++ LF) all_faqs in
        ret (PStr (slice_to combined_faq (Z.min (len combined_faq) 10000)))
    end
  else
    inference (faq_prompt num_questions text) model_name process_placeholder 1000.

(** [generate_faq]: the wrapper kept for backwards compatibility. *)
Definition generate_faq (text : str) (num_questions : Z)
    (model_name : str) (process_placeholder : option placeholder) : M pyval :=
  generate_faq_smart text num_questions model_name process_placeholder.

(** Every chunk call, one after the other from server state [s], succeeds:
    it returns a string that is not a failure message.  [outs] are the
    outputs and [s'] is the server state after the last call. *)
Inductive all_succeed (questions_per_chunk : Z) (model_name : str)
  : list str -> server -> list str -> server -> Prop :=
| all_succeed_nil : forall s,
    all_succeed questions_per_chunk model_name [] s [] s
| all_succeed_cons : forall chunk rest s out s1 t outs s2,
    inference (chunk_prompt questions_per_chunk chunk) model_name None 1000 s
      = (Ok (PStr out), s1, t) ->
    startswith out CROSS = false ->
    all_succeed questions_per_chunk model_name rest s1 outs s2 ->
    all_succeed questions_per_chunk model_name (chunk :: rest) s (out :: outs) s2.

End Orchestrator.

(* ===================================================================== *)
(** ** Concrete runtimes and inputs for the examples *)
(* ===================================================================== *)

(** A server that plays a script: each request gets the next outcome of the
    list; when the script is over the connection is refused. *)
#[local] Instance scripted : Runtime := {|
  server := list (result response);
  requests_post := fun _ s =>
    match s with
    | [] => (Exc (ConnectionError (lit "connection refused")), [])
    | o :: s' => (o, s')
    end;
  str_of_exn := fun e =>
    match e with
    | ConnectionError d | Timeout d | HTTPError _ d | RequestError d => d
    | TypeError _ => lit "TypeError"
    | AttributeError _ a => a
    | KeyError k => k
    | ZeroDivisionError => lit "integer division or modulo by zero"
    end
|}.

(** A 200 answer of the chat endpoint carrying [text]. *)
Definition chat_ok (text : str) : result response :=
  Ok {| status_code := 200;
        json_body := Ok (PDict [ (lit "model", PStr (lit "m"));
                                 (lit "message",
                                  PDict [ (lit "role", PStr (lit "assistant"));
                                          (lit "content", PStr text) ]);
                                 (lit "done", PBool true) ]) |}.

(** A 200 answer of the generate endpoint carrying [text]. *)
Definition generate_ok (text : str) : result response :=
  Ok {| status_code := 200;
        json_body := Ok (PDict [ (lit "model", PStr (lit "m"));
                                 (lit "response", PStr text);
                                 (lit "done", PBool true) ]) |}.

Definition not_found : result response :=
  Ok {| status_code := 404; json_body := Exc (RequestError (lit "no JSON")) |}.

Definition letters (c : string) (n : nat) : str := concat (repeat (lit c) n).

(** Two sentences of 2000 characters: 4001 characters, two chunks. *)
Definition two_sections : str := letters "a" 2000 ++ [DOT] ++ letters "b" 2000.

(** Three sentences of 1999 characters: 6000 characters, three chunks. *)
Definition three_sections : str :=
  letters "a" 1999 ++ [DOT] ++ letters "b" 1999 ++ [DOT] ++ letters "c" 1999
  ++ [DOT].

(* ===================================================================== *)
(** ** Notions used by the statements about the chunker *)
(* ===================================================================== *)

(** What [strip] does to a buffer: the sentences stay, the first one loses
    its leading whitespace. *)
Definition lstrip_head (g : list str) : list str :=
  match g with
  | [] => []
  | s :: g' => lstrip s :: g'
  end.

(** The state of the chunking loop after some sentences: the finished
    chunks are the stripped buffers of [groups], the current buffer holds
    the sentences [g], and the groups followed by [g] are the sentences
    read so far, in order. *)
Record loop_state (st : list str * str) (groups : list (list str))
    (g : list str) : Prop := {
  ls_chunks : fst st = map (fun g => strip (buffer_of g)) groups;
  ls_current : snd st = buffer_of g;
  ls_nonempty : Forall (fun g => g <> []) groups
}.

(** A chunk is within the bound when it has at most [max_chars] characters
    or holds one sentence that, with its period, cannot fit. *)
Definition within_bound (max_chars : Z) (sents : list str) (c : str) : Prop :=
  len c <= max_chars
  \/ exists s, In s sents /\ max_chars <= len s /\ c = strip (s ++ [DOT]).

Definition buffer_within_bound (max_chars : Z) (sents : list str) (b : str)
  : Prop :=
  len b <= max_chars
  \/ exists s, In s sents /\ max_chars <= len s /\ b = s ++ [DOT].

(** The bound with the exception kept for a sentence that is itself longer
    than [max_chars]. *)
Definition within_strict_bound (max_chars : Z) (sents : list str) (c : str)
  : Prop :=
  len c <= max_chars
  \/ exists s, In s sents /\ max_chars < len s /\ c = strip (s ++ [DOT]).

(** The sentences read back from the chunks are the sentences of the
    text, character for character. *)
Definition reconstructs_exactly (text : str) (max_chars : Z) : Prop :=
  concat (map unpack (chunk_text text max_chars)) = sentences text.

(* ===================================================================== *)
(** ** Notions used by the statements about the client and the orchestrator *)
(* ===================================================================== *)

Section Notions.

Context {R : Runtime}.

(** The HTTP exchange of one client call: the body of the [try] of
    [inference] after the progress display. *)
Definition exchange (prompt model_name : str) (timeout : Z) : M pyval :=
  response <- post (chat_request prompt model_name timeout) ;;
  response <- (if status_code response =? 404
               then post (generate_request prompt model_name timeout)
               else ret response) ;;
  raise_for_status response ;;
  result <- lift (json_body response) ;;
  has_message <- lift (py_in (lit "message") result) ;;
  if has_message : bool then
    msg <- lift (py_getitem result (lit "message")) ;;
    lift (py_get msg (lit "content") (PStr []))
  else
    lift (py_get result (lit "response") (PStr [])).

(** The exchange under the handlers of [inference]. *)
Definition attempt (prompt model_name : str) (timeout : Z) : M pyval :=
  try_except (exchange prompt model_name timeout)
    (inference_handler model_name timeout).

(** What a response that is kept turns into: the end of the [try] of
    [inference], from [raise_for_status] on, under the handlers. *)
Definition conclude (model_name : str) (timeout : Z) (o : result response)
  : M pyval :=
  try_except
    (response <- lift o ;;
     raise_for_status response ;;
     result <- lift (json_body response) ;;
     has_message <- lift (py_in (lit "message") result) ;;
     if has_message : bool then
       msg <- lift (py_getitem result (lit "message")) ;;
       lift (py_get msg (lit "content") (PStr []))
     else
       lift (py_get result (lit "response") (PStr [])))
    (inference_handler model_name timeout).

(** The value a run ends with, the server state it leaves and its trace. *)
Definition value_of {A : Type} (x : result A * server * list event)
  : result A :=
  fst (fst x).

Definition server_of {A : Type} (x : result A * server * list event)
  : server :=
  snd (fst x).

Definition trace_of {A : Type} (x : result A * server * list event)
  : list event :=
  snd x.

End Notions.

(** The progress output of [show_processing_steps]. *)
Definition steps_trace (p : placeholder) : list event :=
  flat_map (fun '(title, desc) =>
    [ Markdown p
        (LF ++ lit "            <div class='process-step'>" ++ LF
         ++ lit "                " ++ title ++ lit ": " ++ desc ++ LF
         ++ lit "            </div>" ++ LF
         ++ lit "        ");
      Sleep 800 ]) steps.

Definition sink_steps (sink : option placeholder) : list event :=
  match sink with Some p => steps_trace p | None => [] end.

Definition sink_info (sink : option placeholder) (i total : Z) : list event :=
  match sink with Some p => [Info p (section_message i total)] | None => [] end.

Definition sink_empty (sink : option placeholder) : list event :=
  match sink with Some p => [Empty p] | None => [] end.

(** The client call made for one chunk of a long text. *)
Definition chunk_call (questions_per_chunk : Z) (model_name : str)
    (chunk : str) : event :=
  Call (chunk_prompt questions_per_chunk chunk) model_name 1000.

(** [questions_per_chunk] of a long text. *)
Definition questions_per_chunk (text : str) (num_questions : Z) : Z :=
  Z.max 2 (num_questions / len (chunk_text text 2500)).

(** [combined_faq[:min(len(combined_faq), 10000)]] of the outputs. *)
Definition combined (all_faqs : list str) : str :=
  slice_to (join (LF ++ LF) all_faqs)
    (Z.min (len (join (LF ++ LF) all_faqs)) 10000).

(* ===================================================================== *)
(** ** The streaming client and the model list *)
(* ===================================================================== *)

(** What [json.loads(line)] gives for one line of a streamed answer. *)
Inductive line_json : Type :=
| Decoded (chunk : pyval)
| Malformed
| Unreadable (e : exn).

(** One item of [response.iter_lines()]: an empty line (a keep-alive) or a
    line with content.  [Malformed] is [json.JSONDecodeError];
    [Unreadable] is any other exception of [json.loads]. *)
Inductive line : Type :=
| EmptyLine
| Line (j : line_json).

(** A response opened with [stream=True]: its status, the lines the
    iteration yields, and the exception that ends the iteration early, if
    any. *)
Record stream_response : Type := {
  stream_status : Z;
  stream_lines : list line;
  stream_error : option exn
}.

(** The two other ways the program reaches the model server: a POST with
    [stream=True] and a GET (url, timeout). *)
Class Transport (R : Runtime) : Type := {
  requests_post_stream : request -> server -> result stream_response * server;
  requests_get : str -> Z -> server -> result response * server
}.

(** [return [model['name'] for model in models]]: iterating a list gives
    its items, a dict its keys, a string its characters. *)
Fixpoint names_of (items : list pyval) : result (list pyval) :=
  match items with
  | [] => Ok []
  | model :: rest =>
      match py_getitem model (lit "name") with
      | Exc e => Exc e
      | Ok name =>
          match names_of rest with
          | Exc e => Exc e
          | Ok names => Ok (name :: names)
          end
      end
  end.

Definition py_iter (v : pyval) : result (list pyval) :=
  match v with
  | PList l => Ok l
  | PDict d => Ok (map (fun kv => PStr (fst kv)) d)
  | PStr s => Ok (map (fun c => PStr [c]) s)
  | _ => Exc (TypeError v)
  end.

Section Streaming.

Context {R : Runtime} {T : Transport R}.

Definition post_stream (req : request) : M stream_response :=
  fun s => let '(r, s1) := requests_post_stream req s in (r, s1, [Post req]).

Definition stream_chat_request (prompt model_name : str) : request :=
  {| url := MODEL_SERVER_URL ++ lit "/api/chat";
     json := ChatPayload model_name
               [ {| role := lit "user"; content := prompt |} ] true;
     timeout := 10 |}.

Definition stream_generate_request (prompt model_name : str) : request :=
  {| url := MODEL_SERVER_URL ++ lit "/api/generate";
     json := GeneratePayload model_name prompt true;
     timeout := 10 |}.

(** The [except] clauses of [inference_streaming]. *)
Definition streaming_handler (model_name : str) (e : exn) : M pyval :=
  match e with
  | ConnectionError _ =>
      ret (PStr (ERROR ++ lit "Model server is not running. Please start the model server."))
  | Timeout _ =>
      ret (PStr (ERROR ++ lit "Connection to model server timed out."))
  | HTTPError st _ =>
      match st with
      | Some code =>
          if code =? 404
          then ret (PStr (ERROR ++ lit "Model '" ++ model_name
                          ++ lit "' not found in model repository."))
          else ret (PStr (ERROR ++ str_of_exn e))
      | None => raise (AttributeError PNone (lit "status_code"))
      end
  | _ => ret (PStr (ERROR ++ str_of_exn e))
  end.

(** The loop over the streamed lines, [full_response] so far. *)
Fixpoint collect (result_placeholder : option placeholder)
    (lines : list line) (full_response : str) : M str :=
  match lines with
  | [] => ret full_response
  | EmptyLine :: rest => collect result_placeholder rest full_response
  | Line Malformed :: rest => collect result_placeholder rest full_response
  | Line (Unreadable e) :: _ => raise e
  | Line (Decoded chunk) :: rest =>
      has_message <- lift (py_in (lit "message") chunk) ;;
      piece <- (if has_message : bool then
                  msg <- lift (py_getitem chunk (lit "message")) ;;
                  lift (py_get msg (lit "content") (PStr []))
                else
                  lift (py_get chunk (lit "response") (PStr []))) ;;
      match piece with
      | PStr text =>
          when_sink result_placeholder
            (fun p => emit (Markdown p (full_response ++ text))) ;;
          collect result_placeholder rest (full_response ++ text)
      | _ => raise (TypeError piece)
      end
  end.

(** [inference_streaming(prompt, model_name, result_placeholder=None)] *)
Definition inference_streaming (prompt model_name : str)
    (result_placeholder : option placeholder) : M pyval :=
  try_except
    (response <- post_stream (stream_chat_request prompt model_name) ;;
     response <- (if stream_status response =? 404
                  then post_stream (stream_generate_request prompt model_name)
                  else ret response) ;;
     (if (400 <=? stream_status response) && (stream_status response <? 600)
      then raise (HTTPError (Some (stream_status response)) [])
      else ret tt) ;;
     full_response <- collect result_placeholder (stream_lines response) [] ;;
     match stream_error response with
     | Some e => raise e
     | None => ret (PStr full_response)
     end)
    (streaming_handler model_name).

(** [requests.get(f"{MODEL_SERVER_URL}/api/tags", timeout=5)] *)
Definition get_tags (s : server) : result response * server :=
  requests_get (MODEL_SERVER_URL ++ lit "/api/tags") 5 s.

(** [check_model_server()]: the pair it returns and the server state it
    leaves. *)
Definition check_model_server (s : server)
  : (bool * option response) * server :=
  match get_tags s with
  | (Ok response, s1) => ((status_code response =? 200, Some response), s1)
  | (Exc _, s1) => ((false, None), s1)
  end.

(** The body of the [try] of [load_available_models] after the request. *)
Definition read_models (response : response) : result (list pyval) :=
  if status_code response =? 200 then
    match json_body response with
    | Exc e => Exc e
    | Ok body =>
        match py_get body (lit "models") (PList []) with
        | Exc e => Exc e
        | Ok models =>
            match py_iter models with
            | Exc e => Exc e
            | Ok items => names_of items
            end
        end
    end
  else Ok [].

(** [load_available_models()]: every exception gives the empty list. *)
Definition load_available_models (s : server) : list pyval * server :=
  match get_tags s with
  | (Ok response, s1) =>
      match read_models response with
      | Ok names => (names, s1)
      | Exc _ => ([], s1)
      end
  | (Exc _, s1) => ([], s1)
  end.

End Streaming.

(** What a well-formed fragment of a streamed answer carries; the other
    lines carry nothing. *)
Definition fragment_text (l : line) : option str :=
  match l with
  | Line (Decoded (PDict d)) =>
      match dict_lookup d (lit "message") with
      | Some (PDict m) =>
          match dict_lookup m (lit "content") with
          | Some (PStr text) => Some text
          | None => Some []
          | Some _ => None
          end
      | Some _ => None
      | None =>
          match dict_lookup d (lit "response") with
          | Some (PStr text) => Some text
          | None => Some []
          | Some _ => None
          end
      end
  | _ => None
  end.

(** A line the loop gets past: empty, malformed, or a well-formed
    fragment. *)
Definition line_passes (l : line) : bool :=
  match l with
  | EmptyLine => true
  | Line Malformed => true
  | Line (Unreadable _) => false
  | Line (Decoded _) =>
      match fragment_text l with Some _ => true | None => false end
  end.

Definition line_text (l : line) : str :=
  match fragment_text l with Some text => text | None => [] end.

(** The text after each fragment of the lines, in order, starting from
    [acc]. *)
Fixpoint running_texts (acc : str) (lines : list line) : list str :=
  match lines with
  | [] => []
  | l :: rest =>
      match l with
      | Line (Decoded _) =>
          (acc ++ line_text l) :: running_texts (acc ++ line_text l) rest
      | _ => running_texts acc rest
      end
  end.

(** A model server with a script for the plain answers (POST and GET) and
    one for the streamed answers. *)
#[local] Instance scripted_more : Runtime := {|
  server := (list (result response) * list (result stream_response))%type;
  requests_post := fun _ s =>
    match fst s with
    | [] => (Exc (ConnectionError (lit "connection refused")), s)
    | o :: rest => (o, (rest, snd s))
    end;
  str_of_exn := fun e =>
    match e with
    | ConnectionError d | Timeout d | HTTPError _ d | RequestError d => d
    | TypeError _ => lit "TypeError"
    | AttributeError _ a => a
    | KeyError k => k
    | ZeroDivisionError => lit "integer division or modulo by zero"
    end
|}.

#[local] Instance scripted_transport : Transport scripted_more := {|
  requests_post_stream := fun _ s =>
    match snd s with
    | [] => (Exc (ConnectionError (lit "connection refused")), s)
    | o :: rest => (o, (fst s, rest))
    end;
  requests_get := fun _ _ s =>
    match fst s with
    | [] => (Exc (ConnectionError (lit "connection refused")), s)
    | o :: rest => (o, (rest, snd s))
    end
|}.

(** A streamed fragment of the chat endpoint carrying [text]. *)
Definition chat_fragment (text : str) : line :=
  Line (Decoded (PDict [ (lit "message",
                          PDict [ (lit "role", PStr (lit "assistant"));
                                  (lit "content", PStr text) ]);
                         (lit "done", PBool false) ])).

(** The answer of [/api/tags] listing the models [names]. *)
Definition tags_ok (names : list str) : result response :=
  Ok {| status_code := 200;
        json_body :=
          Ok (PDict [ (lit "models",
                       PList (map (fun n => PDict [ (lit "name", PStr n);
                                                    (lit "size", PInt 1) ])
                                names)) ]) |}.

(* ===================================================================== *)
(** ** Notions used by the further statements *)
(* ===================================================================== *)

(** The number of characters of all the strings of a list. *)
Definition total_len (l : list str) : Z :=
  fold_right (fun s acc => len s + acc) 0 l.

(** No group could have taken the first sentence of the next one: by the
    test of the loop that sentence did not fit. *)
Fixpoint tightly_packed (max_chars : Z) (groups : list (list str)) : Prop :=
  match groups with
  | g :: rest =>
      match rest with
      | g' :: _ => max_chars <= len (buffer_of g) + len (hd [] g')
      | [] => True
      end
      /\ tightly_packed max_chars rest
  | [] => True
  end.

(** The state of the chunking loop, with what the packing test has
    established so far. *)
Record packed_state (max_chars : Z) (st : list str * str)
    (groups : list (list str)) (g : list str) : Prop := {
  ps_state : loop_state st groups g;
  ps_packed : tightly_packed max_chars (groups ++ [g]);
  ps_first : g = [] -> groups = []
}.

(** What [inference] takes out of a JSON object [d]: the content of its
    message when it has a message, its response otherwise, the empty string
    when the key is missing. *)
Definition payload_of (d : list (str * pyval)) (v : pyval) : Prop :=
  match dict_lookup d (lit "message") with
  | Some msg =>
      exists m,
        msg = PDict m
        /\ v = match dict_lookup m (lit "content") with
               | Some c => c
               | None => PStr []
               end
  | None =>
      v = match dict_lookup d (lit "response") with
          | Some c => c
          | None => PStr []
          end
  end.

(** The time slept in a trace, in milliseconds. *)
Definition sleep_total (t : list event) : Z :=
  fold_right (fun e acc => match e with Sleep ms => ms + acc | _ => acc end) 0 t.

(** The events of [show_processing_steps]. *)
Definition is_step (e : event) : bool :=
  match e with Markdown _ _ | Sleep _ => true | _ => false end.

Definition is_info (e : event) : bool :=
  match e with Info _ _ => true | _ => false end.

(** The section messages of the first [k] chunks of [total]. *)
Definition section_infos (p : placeholder) (total : Z) (first k : nat)
  : list event :=
  map (fun i => Info p (section_message (Z.of_nat i) total)) (seq first k).

Section StreamNotions.

Context {R : Runtime} {T : Transport R}.

(** What a kept streamed response turns into: the end of the [try] of
    [inference_streaming], from [raise_for_status] on, under the
    handlers. *)
Definition stream_conclude (model_name : str)
    (result_placeholder : option placeholder) (o : result stream_response)
  : M pyval :=
  try_except
    (response <- lift o ;;
     (if (400 <=? stream_status response) && (stream_status response <? 600)
      then raise (HTTPError (Some (stream_status response)) [])
      else ret tt) ;;
     full_response <- collect result_placeholder (stream_lines response) [] ;;
     match stream_error response with
     | Some e => raise e
     | None => ret (PStr full_response)
     end)
    (streaming_handler model_name).

End StreamNotions.

(** The display of the text so far, when there is a placeholder. *)
Definition sink_markdown (sink : option placeholder) (texts : list str)
  : list event :=
  match sink with
  | Some p => map (Markdown p) texts
  | None => []
  end.

(** A 500 answer without a JSON body. *)
Definition server_error : result response :=
  Ok {| status_code := 500;
        json_body := Exc (RequestError (lit "no JSON")) |}.

(** A 200 answer whose object has neither a message nor a response. *)
Definition chat_blank : result response :=
  Ok {| status_code := 200;
        json_body := Ok (PDict [ (lit "done", PBool true) ]) |}.

(** A streamed 200 answer with the lines [lines]. *)
Definition stream_ok (lines : list line) (error : option exn)
  : result stream_response :=
  Ok {| stream_status := 200; stream_lines := lines; stream_error := error |}.

(** Two fragments with a keep-alive and a broken line between them. *)
Definition hello_lines : list line :=
  [ chat_fragment (lit "Hel"); EmptyLine; Line Malformed;
    chat_fragment (lit "lo") ].

(* ===================================================================== *)
(** ** Properties of strings *)
(* ===================================================================== *)

Lemma len_app {A : Type} (a b : list A) : len (a ++ b) = len a + len b.
Proof. unfold len. rewrite length_app. lia. Qed.

Lemma len_nonneg {A : Type} (a : list A) : 0 <= len a.
Proof. unfold len. lia. Qed.

Lemma truthy_false (s : str) : truthy s = false -> s = [].
Proof. destruct s; [reflexivity | discriminate]. Qed.

Lemma lstrip_length (s : str) : (List.length (lstrip s) <= List.length s)%nat.
Proof.
  induction s as [| c s IH]; simpl; [lia |].
  destruct (isspace c); simpl; lia.
Qed.

Lemma strip_len (s : str) : len (strip s) <= len s.
Proof.
  unfold len, strip, rstrip. rewrite length_rev.
  pose proof (lstrip_length (rev (lstrip s))) as H1.
  pose proof (lstrip_length s) as H2.
  rewrite length_rev in H1. lia.
Qed.

Lemma lstrip_app_stop (a b : str) (x : char) :
  isspace x = false -> lstrip (a ++ x :: b) = lstrip a ++ x :: b.
Proof.
  intros Hx. induction a as [| c a IH]; simpl.
  - now rewrite Hx.
  - destruct (isspace c); [exact IH | reflexivity].
Qed.

Lemma rstrip_stop (a : str) (x : char) :
  isspace x = false -> rstrip (a ++ [x]) = a ++ [x].
Proof.
  intros Hx. unfold rstrip. rewrite rev_app_distr. simpl. rewrite Hx.
  simpl. now rewrite rev_involutive.
Qed.

Lemma lstrip_keeps_out (x : char) (s : str) : ~ In x s -> ~ In x (lstrip s).
Proof.
  induction s as [| c s IH]; simpl; [tauto |].
  destruct (isspace c); simpl; tauto.
Qed.

Lemma split_not_nil (sep : char) (s : str) : split sep s <> [].
Proof.
  destruct s as [| c s]; simpl; [discriminate |].
  destruct (N.eqb c sep); [discriminate |].
  destruct (split sep s); discriminate.
Qed.

Lemma split_pieces_clean (sep : char) (s : str) :
  Forall (fun p => ~ In sep p) (split sep s).
Proof.
  induction s as [| c s IH]; simpl.
  - constructor; [tauto | constructor].
  - destruct (N.eqb_spec c sep) as [E | E].
    + constructor; [tauto | exact IH].
    + destruct (split sep s) as [| p ps]; simpl.
      * constructor; [| constructor]. simpl. intros [H | []]. congruence.
      * inversion IH; subst. constructor; [| assumption].
        simpl. intros [H | H]; [congruence | tauto].
Qed.

Lemma split_piece_sep (sep : char) (p rest : str) :
  ~ In sep p -> split sep (p ++ sep :: rest) = p :: split sep rest.
Proof.
  induction p as [| c p IH]; simpl; intros Hp.
  - now rewrite N.eqb_refl.
  - destruct (N.eqb_spec c sep) as [E | E]; [tauto |].
    rewrite IH by tauto. reflexivity.
Qed.

(* ===================================================================== *)
(** ** Properties of the chunker *)
(* ===================================================================== *)

Lemma buffer_of_cons (s : str) (g : list str) :
  buffer_of (s :: g) = s ++ DOT :: buffer_of g.
Proof. unfold buffer_of. simpl. now rewrite <- app_assoc. Qed.

Lemma buffer_of_snoc (g : list str) (s : str) :
  buffer_of (g ++ [s]) = buffer_of g ++ s ++ [DOT].
Proof.
  unfold buffer_of. rewrite map_app, concat_app. simpl. now rewrite app_nil_r.
Qed.

Lemma buffer_of_truthy (g : list str) : truthy (buffer_of g) = false -> g = [].
Proof.
  destruct g as [| s g]; [reflexivity |].
  rewrite buffer_of_cons. destruct s; discriminate.
Qed.

Lemma buffer_ends_with_dot (s : str) (g : list str) :
  exists a, buffer_of (s :: g) = a ++ [DOT].
Proof.
  revert s. induction g as [| s' g IH]; intros s.
  - exists s. rewrite buffer_of_cons. reflexivity.
  - destruct (IH s') as [a Ha]. exists (s ++ DOT :: a).
    rewrite buffer_of_cons, Ha, <- app_assoc. reflexivity.
Qed.

Lemma strip_buffer (g : list str) :
  strip (buffer_of g) = buffer_of (lstrip_head g).
Proof.
  destruct g as [| s g]; [reflexivity |].
  unfold strip. simpl lstrip_head.
  rewrite buffer_of_cons, lstrip_app_stop by reflexivity.
  rewrite <- buffer_of_cons.
  destruct (buffer_ends_with_dot (lstrip s) g) as [a Ha].
  rewrite Ha. now apply rstrip_stop.
Qed.

Lemma split_buffer (g : list str) :
  Forall (fun s => ~ In DOT s) g -> split DOT (buffer_of g) = g ++ [[]].
Proof.
  induction 1 as [| s g Hs Hg IH]; [reflexivity |].
  rewrite buffer_of_cons, split_piece_sep by assumption.
  now rewrite IH.
Qed.

Lemma unpack_buffer (g : list str) :
  Forall (fun s => ~ In DOT s) g -> unpack (buffer_of g) = g.
Proof.
  intros Hg. unfold unpack. rewrite split_buffer by assumption.
  apply removelast_last.
Qed.

Lemma unpack_strip_buffer (g : list str) :
  Forall (fun s => ~ In DOT s) g ->
  unpack (strip (buffer_of g)) = lstrip_head g.
Proof.
  intros Hg. rewrite strip_buffer. apply unpack_buffer.
  destruct Hg as [| s g Hs Hg]; simpl; constructor; try assumption.
  now apply lstrip_keeps_out.
Qed.

Lemma chunk_step_state (max_chars : Z) (st : list str * str)
    (groups : list (list str)) (g : list str) (s : str) :
  loop_state st groups g ->
  exists groups' g',
    loop_state (chunk_step max_chars st s) groups' g'
    /\ concat groups' ++ g' = (concat groups ++ g) ++ [s]
    /\ g' <> [].
Proof.
  intros [Hc Hb Hn]. destruct st as [chunks cur]. simpl in Hc, Hb.
  unfold chunk_step.
  destruct (len cur + len s <? max_chars).
  - exists groups, (g ++ [s]). split; [| split].
    + constructor; simpl; try assumption.
      rewrite buffer_of_snoc. now rewrite Hb.
    + now rewrite app_assoc.
    + destruct g; discriminate.
  - destruct (truthy cur) eqn:Ht.
    + exists (groups ++ [g]), [s]. split; [| split].
      * constructor; simpl.
        -- rewrite map_app. simpl. now rewrite Hc, Hb.
        -- now rewrite buffer_of_cons.
        -- apply Forall_app. split; [assumption |].
           constructor; [| constructor].
           intros ->. subst cur. discriminate.
      * rewrite concat_app. simpl. now rewrite app_nil_r.
      * discriminate.
    + exists groups, [s]. split; [| split].
      * constructor; simpl; try assumption.
        now rewrite buffer_of_cons.
      * rewrite Hb in Ht. apply buffer_of_truthy in Ht. subst g.
        now rewrite app_nil_r.
      * discriminate.
Qed.

Lemma chunk_fold_state (max_chars : Z) (sents : list str) :
  forall st groups g,
    loop_state st groups g ->
    exists groups' g',
      loop_state (fold_left (chunk_step max_chars) sents st) groups' g'
      /\ concat groups' ++ g' = (concat groups ++ g) ++ sents
      /\ (sents <> [] -> g' <> []).
Proof.
  induction sents as [| s sents IH]; intros st groups g Hst.
  - exists groups, g. rewrite app_nil_r. simpl. tauto.
  - destruct (chunk_step_state max_chars st groups g s Hst)
      as (groups1 & g1 & Hst1 & Hcat1 & Hg1).
    destruct (IH _ _ _ Hst1) as (groups2 & g2 & Hst2 & Hcat2 & Hg2).
    exists groups2, g2. simpl. split; [assumption | split].
    + rewrite Hcat2, Hcat1, <- app_assoc. reflexivity.
    + intros _. destruct sents as [| s' sents'].
      * simpl in Hst2, Hcat2. rewrite app_nil_r in Hcat2.
        destruct Hst1 as [_ H1 _], Hst2 as [_ H2 _].
        rewrite H1 in H2. intros ->. destruct g1 as [| x g1]; [tauto |].
        rewrite buffer_of_cons in H2. destruct x; discriminate.
      * apply Hg2. discriminate.
Qed.

(** The long path of [chunk_text], as a grouping of the sentences. *)
Lemma chunk_text_groups (text : str) (max_chars : Z) :
  max_chars < len text ->
  exists groups,
    concat groups = sentences text
    /\ Forall (fun g => g <> []) groups
    /\ chunk_text text max_chars = map (fun g => strip (buffer_of g)) groups
    /\ exists front,
         chunk_text text max_chars
         = front ++ [strip (snd (chunk_loop max_chars (sentences text)))].
Proof.
  intros Hlong. unfold chunk_text.
  destruct (Z.leb_spec (len text) max_chars) as [H | _]; [lia |].
  assert (H0 : loop_state ([], []) [] []) by (constructor; simpl; auto).
  destruct (chunk_fold_state max_chars (sentences text) _ _ _ H0)
    as (groups & g & [Hc Hb Hn] & Hcat & Hg).
  fold (chunk_loop max_chars (sentences text)) in Hc, Hb.
  destruct (chunk_loop max_chars (sentences text)) as [chunks cur].
  simpl in Hc, Hb, Hcat |- *.
  specialize (Hg (split_not_nil _ _)).
  destruct (truthy cur) eqn:Ht.
  - exists (groups ++ [g]). repeat split.
    + rewrite concat_app. simpl. now rewrite app_nil_r.
    + apply Forall_app. split; [assumption |]. now repeat constructor.
    + rewrite map_app. simpl. now rewrite Hc, Hb.
    + now exists chunks.
  - rewrite Hb in Ht. apply buffer_of_truthy in Ht. contradiction.
Qed.

Lemma chunk_text_not_nil (text : str) (max_chars : Z) :
  chunk_text text max_chars <> [].
Proof.
  destruct (Z.leb_spec (len text) max_chars) as [H | H].
  - unfold chunk_text. apply Z.leb_le in H. rewrite H. discriminate.
  - destruct (chunk_text_groups text max_chars H) as (gs & _ & _ & _ & front & E).
    rewrite E. destruct front; discriminate.
Qed.

Lemma buffer_flush_within (max_chars : Z) (sents : list str) (b : str) :
  buffer_within_bound max_chars sents b ->
  within_bound max_chars sents (strip b).
Proof.
  intros [H | (s & Hs & Hl & ->)].
  - left. pose proof (strip_len b). lia.
  - right. now exists s.
Qed.

Lemma chunk_step_within (max_chars : Z) (all : list str)
    (st : list str * str) (s : str) :
  In s all ->
  Forall (within_bound max_chars all) (fst st) ->
  (snd st = [] \/ buffer_within_bound max_chars all (snd st)) ->
  Forall (within_bound max_chars all) (fst (chunk_step max_chars st s))
  /\ buffer_within_bound max_chars all (snd (chunk_step max_chars st s)).
Proof.
  intros Hs Hc Hb. destruct st as [chunks cur]. simpl in Hc, Hb.
  unfold chunk_step.
  destruct (Z.ltb_spec (len cur + len s) max_chars) as [Hlt | Hge]; simpl.
  - split; [assumption |]. left.
    rewrite !len_app. change (len [DOT]) with 1. lia.
  - split.
    + destruct (truthy cur) eqn:Ht; [| assumption].
      apply Forall_app. split; [assumption |].
      constructor; [| constructor].
      apply buffer_flush_within.
      destruct Hb as [-> | Hb]; [discriminate | assumption].
    + destruct (Z.ltb_spec (len s) max_chars) as [Hs1 | Hs1].
      * left. rewrite len_app. change (len [DOT]) with 1. lia.
      * right. now exists s.
Qed.

Lemma chunk_fold_within (max_chars : Z) (all sents : list str) :
  incl sents all ->
  forall st,
    Forall (within_bound max_chars all) (fst st) ->
    (snd st = [] \/ buffer_within_bound max_chars all (snd st)) ->
    let st' := fold_left (chunk_step max_chars) sents st in
    Forall (within_bound max_chars all) (fst st')
    /\ (snd st' = [] \/ buffer_within_bound max_chars all (snd st')).
Proof.
  induction sents as [| s sents IH]; intros Hin st Hc Hb; simpl.
  - tauto.
  - destruct (chunk_step_within max_chars all st s) as [Hc1 Hb1];
      try assumption.
    + apply Hin. now left.
    + apply IH; [| assumption | now right].
      intros x Hx. apply Hin. now right.
Qed.

(* ===================================================================== *)
(** ** Properties of traces *)
(* ===================================================================== *)

Lemma calls_app (a b : list event) : calls (a ++ b) = calls a ++ calls b.
Proof. apply filter_app. Qed.

Lemma posts_app (a b : list event) : posts (a ++ b) = posts a ++ posts b.
Proof. apply filter_app. Qed.

Lemma silent_app (a b : list event) : silent (a ++ b) = silent a ++ silent b.
Proof. apply filter_app. Qed.

Lemma sink_steps_quiet (sink : option placeholder) :
  calls (sink_steps sink) = [] /\ posts (sink_steps sink) = []
  /\ silent (sink_steps sink) = [].
Proof. destruct sink; repeat split; reflexivity. Qed.

Lemma sink_info_quiet (sink : option placeholder) (i total : Z) :
  calls (sink_info sink i total) = [] /\ posts (sink_info sink i total) = []
  /\ silent (sink_info sink i total) = [].
Proof. destruct sink; repeat split; reflexivity. Qed.

Lemma sink_empty_quiet (sink : option placeholder) :
  calls (sink_empty sink) = [] /\ posts (sink_empty sink) = []
  /\ silent (sink_empty sink) = [].
Proof. destruct sink; repeat split; reflexivity. Qed.

(* ===================================================================== *)
(** ** Properties of the client *)
(* ===================================================================== *)

Section ClientFacts.

Context {R : Runtime}.

#[local] Arguments inference_handler : simpl never.

Lemma show_processing_steps_run (p : placeholder) (s : server) :
  show_processing_steps p s = (Ok tt, s, steps_trace p).
Proof. reflexivity. Qed.

Lemma handler_run (model_name : str) (timeout : Z) (e : exn) (s : server) :
  exists r, inference_handler model_name timeout e s = (r, s, []).
Proof.
  unfold inference_handler, ret, raise.
  destruct e as [d | d | [code |] d | d | v | v a | k |]; try (eexists; reflexivity).
  destruct (code =? 404); eexists; reflexivity.
Qed.

Ltac handle :=
  match goal with
  | |- context [inference_handler ?m ?t ?e ?s] =>
      let r := fresh "r" in
      destruct (handler_run m t e s) as [r ->]
  end.

(** Case analysis along the end of the [try] of [inference]. *)
Ltac read_response resp :=
  unfold raise_for_status, raise, ret; cbn beta iota;
  destruct ((400 <=? status_code resp) && (status_code resp <? 600));
    cbn beta iota; [handle; cbn; eauto |];
  destruct (json_body resp) as [?v | ?e]; cbn beta iota;
    [| handle; cbn; eauto];
  match goal with
  | |- context [py_in ?k ?v] =>
      destruct (py_in k v) as [[|] | ?e]; cbn beta iota;
      [ destruct (py_getitem v k) as [?m | ?e]; cbn beta iota;
        [ match goal with
          | |- context [py_get ?m ?k2 ?d] =>
              destruct (py_get m k2 d) as [?c | ?e]; cbn beta iota;
              [cbn; eauto | handle; cbn; eauto]
          end
        | handle; cbn; eauto ]
      | match goal with
        | |- context [py_get ?m ?k2 ?d] =>
            destruct (py_get m k2 d) as [?c | ?e]; cbn beta iota;
            [cbn; eauto | handle; cbn; eauto]
        end
      | handle; cbn; eauto ]
  end.

(** The tail of the exchange touches neither the server nor the trace. *)
Lemma conclude_run (model_name : str) (timeout : Z) (o : result response)
    (s : server) :
  exists r, conclude model_name timeout o s = (r, s, []).
Proof.
  unfold conclude, try_except, bind, lift.
  destruct o as [resp | e]; cbn beta iota.
  - read_response resp.
  - handle. eauto.
Qed.

(** One client call, step by step: the chat request, the generate request
    when the answer is a 404, and the conclusion from the response kept. *)
Lemma attempt_run (prompt model_name : str) (timeout : Z) (s : server) :
  attempt prompt model_name timeout s =
  let '(o1, s1) := requests_post (chat_request prompt model_name timeout) s in
  match o1 with
  | Ok r1 =>
      if status_code r1 =? 404 then
        let '(o2, s2) :=
          requests_post (generate_request prompt model_name timeout) s1 in
        (value_of (conclude model_name timeout o2 s2), s2,
         [Post (chat_request prompt model_name timeout);
          Post (generate_request prompt model_name timeout)])
      else
        (value_of (conclude model_name timeout o1 s1), s1,
         [Post (chat_request prompt model_name timeout)])
  | Exc e =>
      (value_of (conclude model_name timeout o1 s1), s1,
       [Post (chat_request prompt model_name timeout)])
  end.
Proof.
  unfold attempt, exchange, conclude, value_of, try_except, bind, post, lift.
  destruct (requests_post (chat_request prompt model_name timeout) s)
    as [[r1 | e] s1]; cbn beta iota.
  2: { handle. reflexivity. }
  destruct (status_code r1 =? 404) eqn:E404.
  - destruct (requests_post (generate_request prompt model_name timeout) s1)
      as [[r2 | e] s2]; cbn beta iota.
    + read_response r2.
    + handle. reflexivity.
  - unfold ret at 1. cbn beta iota. read_response r1.
Qed.

(** A client call is the [Call] mark, the progress display when there is a
    sink, and the exchange under the handlers. *)
Lemma inference_run (prompt model_name : str) (sink : option placeholder)
    (timeout : Z) (s : server) :
  inference prompt model_name sink timeout s =
  let '(r, s1, t) := attempt prompt model_name timeout s in
  (r, s1, Call prompt model_name timeout :: sink_steps sink ++ t).
Proof.
  assert (E : inference prompt model_name sink timeout
              = bind (emit (Call prompt model_name timeout))
                  (fun _ => try_except
                     (bind (when_sink sink show_processing_steps)
                        (fun _ => exchange prompt model_name timeout))
                     (inference_handler model_name timeout)))
    by reflexivity.
  rewrite E. clear E.
  unfold attempt, try_except, bind, emit.
  assert (Hs : when_sink sink show_processing_steps s
               = (Ok tt, s, sink_steps sink)).
  { destruct sink; [apply show_processing_steps_run | reflexivity]. }
  rewrite Hs.
  destruct (exchange prompt model_name timeout s) as [[[v | e] s1] t].
  - reflexivity.
  - handle. cbn. now rewrite !app_nil_r.
Qed.

(** The trace of an exchange holds HTTP requests only. *)
Lemma attempt_trace (prompt model_name : str) (timeout : Z) (s : server) :
  forall r s1 t,
    attempt prompt model_name timeout s = (r, s1, t) ->
    calls t = [] /\ silent t = t /\ posts t = t.
Proof.
  intros r s1 t. rewrite attempt_run.
  destruct (requests_post (chat_request prompt model_name timeout) s)
    as [[r1 | e] s0].
  - destruct (status_code r1 =? 404).
    + destruct (requests_post (generate_request prompt model_name timeout) s0)
        as [o2 s2].
      intros [= _ _ <-]. repeat split.
    + intros [= _ _ <-]. repeat split.
  - intros [= _ _ <-]. repeat split.
Qed.

Lemma inference_calls (prompt model_name : str) (sink : option placeholder)
    (timeout : Z) (s : server) :
  forall r s1 t,
    inference prompt model_name sink timeout s = (r, s1, t) ->
    calls t = [Call prompt model_name timeout].
Proof.
  intros r s1 t. rewrite inference_run.
  destruct (attempt prompt model_name timeout s) as [[r0 s0] t0] eqn:E.
  intros [= _ _ <-].
  destruct (attempt_trace _ _ _ _ _ _ _ E) as (Hc & _ & _).
  destruct (sink_steps_quiet sink) as (Hq & _ & _).
  change (calls ([Call prompt model_name timeout] ++ sink_steps sink ++ t0)
          = [Call prompt model_name timeout]).
  rewrite !calls_app, Hq, Hc. reflexivity.
Qed.

(** The sink of a client call shows in the progress output only. *)
Lemma inference_sink (prompt model_name : str) (p : placeholder)
    (timeout : Z) (s : server) :
  forall r s1 t,
    inference prompt model_name None timeout s = (r, s1, t) ->
    exists t',
      inference prompt model_name (Some p) timeout s = (r, s1, t')
      /\ silent t' = t.
Proof.
  intros r s1 t. rewrite !inference_run.
  destruct (attempt prompt model_name timeout s) as [[r0 s0] t0] eqn:E.
  intros [= <- <- <-]. eexists. split; [reflexivity |].
  destruct (attempt_trace _ _ _ _ _ _ _ E) as (_ & Hs & _).
  change (silent ([Call prompt model_name timeout]
                  ++ sink_steps (Some p) ++ t0)
          = Call prompt model_name timeout :: t0).
  rewrite !silent_app, Hs.
  destruct (sink_steps_quiet (Some p)) as (_ & _ & ->). reflexivity.
Qed.

Lemma inference_none_silent (prompt model_name : str) (timeout : Z)
    (s : server) :
  forall r s1 t,
    inference prompt model_name None timeout s = (r, s1, t) ->
    silent t = t.
Proof.
  intros r s1 t. rewrite inference_run.
  destruct (attempt prompt model_name timeout s) as [[r0 s0] t0] eqn:E.
  intros [= _ _ <-].
  destruct (attempt_trace _ _ _ _ _ _ _ E) as (_ & Hs & _).
  change (silent ([Call prompt model_name timeout] ++ t0)
          = [Call prompt model_name timeout] ++ t0).
  rewrite silent_app, Hs. reflexivity.
Qed.

End ClientFacts.

(* ===================================================================== *)
(** ** Properties of the orchestrator *)
(* ===================================================================== *)

Section OrchestratorFacts.

Context {R : Runtime}.

(** One turn of the loop over the chunks. *)
Lemma faq_loop_cons (q : Z) (model_name : str) (sink : option placeholder)
    (total i : Z) (chunk : str) (rest : list str) (all_faqs : list str)
    (s : server) :
  faq_loop q model_name sink total i (chunk :: rest) all_faqs s =
  let '(r, s1, t) := inference (chunk_prompt q chunk) model_name None 1000 s in
  match r with
  | Ok (PStr out) =>
      if startswith out CROSS then
        (Ok (inr (PStr out)), s1, sink_info sink i total ++ t ++ sink_empty sink)
      else
        let '(r2, s2, t2) :=
          faq_loop q model_name sink total (i + 1) rest (all_faqs ++ [out]) s1 in
        (r2, s2, sink_info sink i total ++ t ++ t2)
  | Ok v => (Exc (AttributeError v (lit "startswith")), s1,
             sink_info sink i total ++ t)
  | Exc e => (Exc e, s1, sink_info sink i total ++ t)
  end.
Proof.
  cbn [faq_loop]. unfold bind at 1.
  assert (Hi : when_sink sink (fun p => emit (Info p (section_message i total))) s
               = (Ok tt, s, sink_info sink i total)) by (destruct sink; reflexivity).
  rewrite Hi. unfold bind at 1.
  destruct (inference (chunk_prompt q chunk) model_name None 1000 s)
    as [[[v | e] s1] t]; [| reflexivity].
  destruct v; try (unfold raise; cbn; now rewrite app_nil_r).
  destruct (startswith s0 CROSS); cbn [negb].
  - unfold bind, ret.
    assert (He : when_sink sink (fun p => emit (Empty p)) s1
                 = (Ok tt, s1, sink_empty sink)) by (destruct sink; reflexivity).
    rewrite He. now rewrite app_nil_r.
  - destruct (faq_loop q model_name sink total (i + 1) rest (all_faqs ++ [s0]) s1)
      as [[r2 s2] t2]. reflexivity.
Qed.

(** The long path of [generate_faq_smart]. *)
Lemma generate_faq_smart_long (text : str) (num_questions : Z)
    (model_name : str) (sink : option placeholder) (s : server) :
  3000 < len text ->
  generate_faq_smart text num_questions model_name sink s =
  let chunks := chunk_text text 2500 in
  let '(r, s1, t) :=
    faq_loop (questions_per_chunk text num_questions) model_name sink
      (len chunks) 0 chunks [] s in
  match r with
  | Ok (inr faq) => (Ok faq, s1, t)
  | Ok (inl all_faqs) => (Ok (PStr (combined all_faqs)), s1, t ++ sink_empty sink)
  | Exc e => (Exc e, s1, t)
  end.
Proof.
  intros Hlong. unfold generate_faq_smart.
  destruct (Z.gtb_spec (len text) 3000) as [_ | H]; [| lia].
  unfold floordiv.
  destruct (Z.eqb_spec (len (chunk_text text 2500)) 0) as [E | _].
  { exfalso. apply (chunk_text_not_nil text 2500).
    unfold len in E. destruct (chunk_text text 2500); [reflexivity | discriminate]. }
  unfold bind at 1, lift. cbn beta iota. unfold bind at 1.
  fold (questions_per_chunk text num_questions).
  destruct (faq_loop (questions_per_chunk text num_questions) model_name sink
              (len (chunk_text text 2500)) 0 (chunk_text text 2500) [] s)
    as [[[[all_faqs | faq] | e] s1] t]; cbn.
  - unfold bind, ret.
    assert (He : when_sink sink (fun p => emit (Empty p)) s1
                 = (Ok tt, s1, sink_empty sink)) by (destruct sink; reflexivity).
    rewrite He. now rewrite app_nil_r.
  - now rewrite app_nil_r.
  - reflexivity.
Qed.

(** The short path of [generate_faq_smart]: one client call, its result
    returned as it is. *)
Lemma generate_faq_smart_short (text : str) (num_questions : Z)
    (model_name : str) (sink : option placeholder) (s : server) :
  len text <= 3000 ->
  generate_faq_smart text num_questions model_name sink s =
  inference (faq_prompt num_questions text) model_name sink 1000 s.
Proof.
  intros Hshort. unfold generate_faq_smart.
  destruct (Z.gtb_spec (len text) 3000) as [H | _]; [lia | reflexivity].
Qed.

(** The client calls of the loop are the calls for the first [k] chunks, in
    order; the loop ends early only with a failure message or an
    exception. *)
Lemma faq_loop_calls (q : Z) (model_name : str) (sink : option placeholder)
    (total : Z) :
  forall chunks i all_faqs s r s1 t,
    faq_loop q model_name sink total i chunks all_faqs s = (r, s1, t) ->
    exists k,
      (k <= List.length chunks)%nat
      /\ (chunks <> [] -> (1 <= k)%nat)
      /\ calls t = map (chunk_call q model_name) (firstn k chunks)
      /\ match r with
         | Ok (inl l) =>
             k = List.length chunks
             /\ exists outs,
                  l = all_faqs ++ outs
                  /\ Forall (fun o => startswith o CROSS = false) outs
                  /\ List.length outs = List.length chunks
         | Ok (inr v) => is_failure v = true
         | Exc _ => True
         end.
Proof.
  induction chunks as [| chunk rest IH]; intros i all_faqs s r s1 t.
  - intros [= <- <- <-]. exists 0%nat. repeat split; try tauto; try lia.
    exists []. now rewrite app_nil_r.
  - rewrite faq_loop_cons.
    destruct (inference (chunk_prompt q chunk) model_name None 1000 s)
      as [[r0 s0] t0] eqn:E.
    pose proof (inference_calls _ _ _ _ _ _ _ _ E) as Hc.
    destruct (sink_info_quiet sink i total) as (Hi & _ & _).
    destruct (sink_empty_quiet sink) as (He & _ & _).
    assert (Hone : forall x, calls (sink_info sink i total ++ t0 ++ x)
                             = chunk_call q model_name chunk :: calls x).
    { intros x. rewrite !calls_app, Hi, Hc. reflexivity. }
    assert (Hstop : calls (sink_info sink i total ++ t0)
                    = map (chunk_call q model_name) (firstn 1 (chunk :: rest))).
    { rewrite <- (app_nil_r t0), Hone. reflexivity. }
    destruct r0 as [v | e].
    2: { intros [= <- <- <-]. exists 1%nat. cbn [List.length].
         repeat split; try lia; assumption. }
    destruct v;
      try (intros [= <- <- <-]; exists 1%nat; cbn [List.length];
           repeat split; try lia; assumption).
    destruct (startswith s2 CROSS) eqn:Hx.
    + intros [= <- <- <-]. exists 1%nat. cbn [List.length].
      repeat split; try lia; [| exact Hx].
      rewrite Hone, He. reflexivity.
    + destruct (faq_loop q model_name sink total (i + 1) rest
                  (all_faqs ++ [s2]) s0) as [[r2 s3] t2] eqn:E2.
      intros [= <- <- <-].
      destruct (IH _ _ _ _ _ _ E2) as (k & Hk & _ & Hcalls & Hr).
      exists (S k). cbn [List.length]. repeat split; try lia.
      * rewrite Hone, Hcalls. reflexivity.
      * destruct r2 as [[l | v] | e]; try assumption.
        destruct Hr as (-> & outs & -> & Hf & Hl). split; [reflexivity |].
        exists (s2 :: outs). rewrite <- app_assoc. repeat split.
        -- now constructor.
        -- cbn [List.length]. lia.
Qed.

(** When every chunk call succeeds the loop runs to its end. *)
Lemma faq_loop_complete (q : Z) (model_name : str) (sink : option placeholder)
    (total : Z) :
  forall chunks s outs s1,
    all_succeed q model_name chunks s outs s1 ->
    forall i all_faqs,
    exists t,
      faq_loop q model_name sink total i chunks all_faqs s
      = (Ok (inl (all_faqs ++ outs)), s1, t)
      /\ calls t = map (chunk_call q model_name) chunks.
Proof.
  induction 1 as [s | chunk rest s out s1 t outs s2 Hrun Hok Hrest IH];
    intros i all_faqs.
  - exists []. rewrite app_nil_r. split; reflexivity.
  - destruct (IH (i + 1) (all_faqs ++ [out])) as (t2 & E2 & Hc2).
    exists (sink_info sink i total ++ t ++ t2).
    rewrite faq_loop_cons, Hrun, Hok, E2, <- app_assoc. split; [reflexivity |].
    destruct (sink_info_quiet sink i total) as (Hi & _ & _).
    rewrite !calls_app, Hi, (inference_calls _ _ _ _ _ _ _ _ Hrun), Hc2.
    reflexivity.
Qed.

(** When the calls for [pre] succeed and the call for the next chunk
    returns a failure message, the loop ends there with that message. *)
Lemma faq_loop_abort (q : Z) (model_name : str) (sink : option placeholder)
    (total : Z) (chunk : str) (post : list str) (f : str) :
  forall pre s outs s1,
    all_succeed q model_name pre s outs s1 ->
    forall s2 t2 i all_faqs,
      inference (chunk_prompt q chunk) model_name None 1000 s1
        = (Ok (PStr f), s2, t2) ->
      startswith f CROSS = true ->
      exists t,
        faq_loop q model_name sink total i (pre ++ chunk :: post) all_faqs s
        = (Ok (inr (PStr f)), s2, t)
        /\ calls t = map (chunk_call q model_name) (pre ++ [chunk]).
Proof.
  induction 1 as [s | c rest s out s1 t outs s3 Hrun Hok Hrest IH];
    intros s2 t2 i all_faqs Hfail Hx.
  - exists (sink_info sink i total ++ t2 ++ sink_empty sink).
    cbn [app]. rewrite faq_loop_cons, Hfail, Hx. split; [reflexivity |].
    destruct (sink_info_quiet sink i total) as (Hi & _ & _).
    destruct (sink_empty_quiet sink) as (He & _ & _).
    rewrite !calls_app, Hi, He, (inference_calls _ _ _ _ _ _ _ _ Hfail).
    reflexivity.
  - destruct (IH s2 t2 (i + 1) (all_faqs ++ [out]) Hfail Hx) as (t3 & E3 & Hc3).
    exists (sink_info sink i total ++ t ++ t3).
    cbn [app]. rewrite faq_loop_cons, Hrun, Hok, E3. split; [reflexivity |].
    destruct (sink_info_quiet sink i total) as (Hi & _ & _).
    rewrite !calls_app, Hi, (inference_calls _ _ _ _ _ _ _ _ Hrun), Hc3.
    reflexivity.
Qed.

(** The sink of the loop shows in the progress output only. *)
Lemma faq_loop_sink (q : Z) (model_name : str) (p : placeholder) (total : Z) :
  forall chunks i all_faqs s r s1 t,
    faq_loop q model_name None total i chunks all_faqs s = (r, s1, t) ->
    exists t',
      faq_loop q model_name (Some p) total i chunks all_faqs s = (r, s1, t')
      /\ silent t' = t.
Proof.
  induction chunks as [| chunk rest IH]; intros i all_faqs s r s1 t.
  - intros [= <- <- <-]. exists []. split; reflexivity.
  - rewrite !faq_loop_cons.
    destruct (inference (chunk_prompt q chunk) model_name None 1000 s)
      as [[r0 s0] t0] eqn:E.
    pose proof (inference_none_silent _ _ _ _ _ _ _ E) as Hs.
    assert (Hinfo : forall x, silent (sink_info (Some p) i total ++ x) = silent x)
      by reflexivity.
    destruct r0 as [v | e].
    2: { intros [= <- <- <-]. eexists. split; [reflexivity |].
         now rewrite Hinfo. }
    destruct v;
      try (intros [= <- <- <-]; eexists; split; [reflexivity |];
           now rewrite Hinfo).
    destruct (startswith s2 CROSS).
    + intros [= <- <- <-]. eexists. split; [reflexivity |].
      rewrite Hinfo, silent_app, Hs. reflexivity.
    + destruct (faq_loop q model_name None total (i + 1) rest
                  (all_faqs ++ [s2]) s0) as [[r2 s3] t2] eqn:E2.
      intros [= <- <- <-].
      destruct (IH _ _ _ _ _ _ E2) as (t2' & -> & Hs2).
      eexists. split; [reflexivity |].
      rewrite Hinfo, silent_app, Hs, Hs2. reflexivity.
Qed.

End OrchestratorFacts.

(* ===================================================================== *)
(** ** Substrings and prompts *)
(* ===================================================================== *)

Lemma startswith_app (x b : str) : startswith (x ++ b) x = true.
Proof.
  induction x as [| c x IH]; [destruct b; reflexivity |].
  simpl. now rewrite N.eqb_refl.
Qed.

Lemma contains_of_startswith (s x : str) :
  startswith s x = true -> contains s x = true.
Proof. destruct s; simpl; intros ->; reflexivity. Qed.

Lemma contains_here (x b : str) : contains (x ++ b) x = true.
Proof. apply contains_of_startswith, startswith_app. Qed.

Lemma contains_skip (a s x : str) :
  contains s x = true -> contains (a ++ s) x = true.
Proof.
  intros H. induction a as [| c a IH]; [exact H |].
  simpl. rewrite IH. apply orb_true_r.
Qed.

Lemma slice_to_len (s : str) (n : Z) : len (slice_to s n) <= Z.max 0 n.
Proof.
  unfold len, slice_to.
  pose proof (firstn_le_length (Z.to_nat n) s) as H.
  revert H. generalize (List.length (firstn (Z.to_nat n) s)).
  intros k Hk. lia.
Qed.

Lemma combined_len (all_faqs : list str) : len (combined all_faqs) <= 10000.
Proof.
  unfold combined.
  generalize (slice_to_len (join (LF ++ LF) all_faqs)
                (Z.min (len (join (LF ++ LF) all_faqs)) 10000)).
  generalize (len (slice_to (join (LF ++ LF) all_faqs)
                     (Z.min (len (join (LF ++ LF) all_faqs)) 10000))).
  intros k Hk. lia.
Qed.

Section SummaryFacts.

Context {R : Runtime}.

Lemma generate_summary_run (text summary_length model_name directive : str)
    (sink : option placeholder) (s : server) :
  instruction_lookup length_instructions summary_length = Ok directive ->
  generate_summary text summary_length model_name sink s
  = inference (summary_prompt directive text) model_name sink 1000 s.
Proof.
  intros H. unfold generate_summary, bind, lift. rewrite H.
  destruct (inference (summary_prompt directive text) model_name sink 1000 s)
    as [[r s1] t].
  reflexivity.
Qed.

Lemma generate_summary_key_error (text summary_length model_name : str)
    (sink : option placeholder) (s : server) (e : exn) :
  instruction_lookup length_instructions summary_length = Exc e ->
  generate_summary text summary_length model_name sink s = (Exc e, s, []).
Proof.
  intros H. unfold generate_summary, bind, lift. now rewrite H.
Qed.

(** What a kept response with a JSON object gives. *)
Lemma conclude_response (model_name : str) (timeout : Z) (r : response)
    (d : list (str * pyval)) (out : pyval) (s : server) :
  ~ (400 <= status_code r < 600) ->
  json_body r = Ok (PDict d) ->
  dict_lookup d (lit "message") = None ->
  dict_lookup d (lit "response") = Some out ->
  conclude model_name timeout (Ok r) s = (Ok out, s, []).
Proof.
  intros Hst Hj Hm Hr.
  unfold conclude, try_except, bind, lift, raise_for_status.
  assert (E : (400 <=? status_code r) && (status_code r <? 600) = false).
  { destruct (Z.leb_spec 400 (status_code r)); [| reflexivity].
    destruct (Z.ltb_spec (status_code r) 600); [lia | reflexivity]. }
  rewrite E. unfold ret. cbn beta iota. rewrite Hj. cbn beta iota.
  unfold py_in. rewrite Hm. cbn beta iota.
  unfold py_get. rewrite Hr. reflexivity.
Qed.

Lemma conclude_message (model_name : str) (timeout : Z) (r : response)
    (d m : list (str * pyval)) (out : pyval) (s : server) :
  ~ (400 <= status_code r < 600) ->
  json_body r = Ok (PDict d) ->
  dict_lookup d (lit "message") = Some (PDict m) ->
  dict_lookup m (lit "content") = Some out ->
  conclude model_name timeout (Ok r) s = (Ok out, s, []).
Proof.
  intros Hst Hj Hm Hr.
  unfold conclude, try_except, bind, lift, raise_for_status.
  assert (E : (400 <=? status_code r) && (status_code r <? 600) = false).
  { destruct (Z.leb_spec 400 (status_code r)); [| reflexivity].
    destruct (Z.ltb_spec (status_code r) 600); [lia | reflexivity]. }
  rewrite E. unfold ret. cbn beta iota. rewrite Hj. cbn beta iota.
  unfold py_in. rewrite Hm. cbn beta iota.
  unfold py_getitem. rewrite Hm. cbn beta iota.
  unfold py_get. rewrite Hr. reflexivity.
Qed.

(** A client call answered at once by the chat endpoint with a message. *)
Lemma inference_chat_message (prompt model_name : str) (timeout : Z)
    (s s1 : server) (r : response) (d m : list (str * pyval)) (out : pyval) :
  requests_post (chat_request prompt model_name timeout) s = (Ok r, s1) ->
  ~ (400 <= status_code r < 600) ->
  json_body r = Ok (PDict d) ->
  dict_lookup d (lit "message") = Some (PDict m) ->
  dict_lookup m (lit "content") = Some out ->
  inference prompt model_name None timeout s
  = (Ok out, s1,
     [Call prompt model_name timeout;
      Post (chat_request prompt model_name timeout)]).
Proof.
  intros Hp Hst Hj Hm Hc.
  rewrite inference_run, attempt_run, Hp.
  destruct (Z.eqb_spec (status_code r) 404) as [E | _]; [lia |].
  rewrite (conclude_message _ _ _ _ _ _ _ Hst Hj Hm Hc). reflexivity.
Qed.

End SummaryFacts.

Lemma chunk_prompt_asks (q : Z) (chunk : str) :
  contains (chunk_prompt q chunk)
    (lit "generate " ++ str_of_int q
     ++ lit " frequently asked questions (FAQ)") = true.
Proof.
  unfold chunk_prompt.
  change (lit "Based on the following text section, generate ")
    with (lit "Based on the following text section, " ++ lit "generate ").
  change (lit " frequently asked questions (FAQ) with their answers. Format each FAQ as:")
    with (lit " frequently asked questions (FAQ)"
          ++ lit " with their answers. Format each FAQ as:").
  rewrite <- !app_assoc. apply contains_skip.
  assert (E : forall a b c rest : str,
             a ++ b ++ c ++ rest = (a ++ b ++ c) ++ rest)
    by (intros; now rewrite <- !app_assoc).
  rewrite E. apply contains_here.
Qed.

Section AbortFacts.

Context {R : Runtime}.

(** The long path when a chunk call returns a failure message. *)
Lemma generate_faq_abort (text : str) (num_questions : Z)
    (model_name : str) (sink : option placeholder) (s s1 s2 : server)
    (pre : list str) (chunk : str) (post : list str) (outs : list str)
    (f : str) (t2 : list event) :
  3000 < len text ->
  chunk_text text 2500 = pre ++ chunk :: post ->
  all_succeed (questions_per_chunk text num_questions) model_name pre s outs s1 ->
  inference (chunk_prompt (questions_per_chunk text num_questions) chunk)
    model_name None 1000 s1 = (Ok (PStr f), s2, t2) ->
  startswith f CROSS = true ->
  let run := generate_faq_smart text num_questions model_name sink s in
  value_of run = Ok (PStr f)
  /\ server_of run = s2
  /\ calls (trace_of run)
     = map (chunk_call (questions_per_chunk text num_questions) model_name)
         (pre ++ [chunk]).
Proof.
  intros Hlong Hchunks Hpre Hfail Hx run. unfold run.
  rewrite generate_faq_smart_long by assumption. cbv zeta. rewrite Hchunks.
  destruct (faq_loop_abort (questions_per_chunk text num_questions) model_name
              sink (len (pre ++ chunk :: post)) chunk post f pre s outs s1 Hpre
              s2 t2 0 [] Hfail Hx) as (t & -> & Hc).
  repeat split. exact Hc.
Qed.

End AbortFacts.

Section CallFacts.

Context {R : Runtime}.

(** The client calls of the long path. *)
Lemma generate_faq_calls (text : str) (num_questions : Z) (model_name : str)
    (sink : option placeholder) (s : server) :
  3000 < len text ->
  exists k,
    (1 <= k <= List.length (chunk_text text 2500))%nat
    /\ calls (trace_of (generate_faq_smart text num_questions model_name sink s))
       = map (chunk_call (questions_per_chunk text num_questions) model_name)
           (firstn k (chunk_text text 2500))
    /\ (forall out,
          value_of (generate_faq_smart text num_questions model_name sink s)
          = Ok (PStr out) ->
          startswith out CROSS = false ->
          k = List.length (chunk_text text 2500)).
Proof.
  intros Hlong. rewrite generate_faq_smart_long by assumption. cbv zeta.
  destruct (faq_loop (questions_per_chunk text num_questions) model_name sink
              (len (chunk_text text 2500)) 0 (chunk_text text 2500) [] s)
    as [[r s1] t] eqn:E.
  destruct (faq_loop_calls _ _ _ _ _ _ _ _ _ _ _ E)
    as (k & Hk & H1 & Hc & Hr).
  specialize (H1 (chunk_text_not_nil text 2500)).
  exists k. split; [lia |].
  destruct r as [[l | faq] | e]; unfold trace_of, value_of; cbn [fst snd].
  - split.
    + rewrite calls_app.
      destruct (sink_empty_quiet sink) as (-> & _ & _).
      now rewrite app_nil_r.
    + intros _ _ _. exact (proj1 Hr).
  - split; [exact Hc |].
    intros out [= ->] Hok. cbn in Hr. congruence.
  - split; [exact Hc |]. discriminate.
Qed.

End CallFacts.

(* ===================================================================== *)
(** ** The chunker: size of the chunks and order of the sentences *)
(* ===================================================================== *)

(** C5, as amended.  Every chunk returned by [chunk_text] has at most
    [max_chars] characters, except a chunk that consists of a single
    sentence (with its synthetic trailing period, stripped) whose length is
    at least [max_chars]: with its period it cannot fit and it is emitted
    unsplit. *)
Theorem chunk_text_bound (text : str) (max_chars : Z) (c : str) :
  In c (chunk_text text max_chars) ->
  len c <= max_chars
  \/ exists s,
       In s (sentences text) /\ max_chars <= len s /\ c = strip (s ++ [DOT]).
Proof.
  unfold chunk_text.
  destruct (Z.leb_spec (len text) max_chars) as [Hshort | Hlong].
  - intros [<- | []]. now left.
  - destruct (chunk_fold_within max_chars (sentences text) (sentences text)
                (incl_refl _) ([], [])) as [Hc Hb];
      [constructor | now left |].
    fold (chunk_loop max_chars (sentences text)) in Hc, Hb.
    destruct (chunk_loop max_chars (sentences text)) as [chunks cur].
    simpl in Hc, Hb.
    assert (Hall : Forall (within_bound max_chars (sentences text))
                     (if truthy cur then chunks ++ [strip cur] else chunks)).
    { destruct (truthy cur) eqn:Ht; [| assumption].
      apply Forall_app. split; [assumption |].
      constructor; [| constructor]. apply buffer_flush_within.
      destruct Hb as [-> | Hb]; [discriminate | assumption]. }
    intros Hin. rewrite Forall_forall in Hall. exact (Hall c Hin).
Qed.

Lemma chunk_text_bound_witness :
  len (lit "ab.") <= 2
  \/ exists s,
       In s (sentences (lit "ab.c")) /\ 2 <= len s
       /\ lit "ab." = strip (s ++ [DOT]).
Proof.
  apply (chunk_text_bound (lit "ab.c") 2 (lit "ab.")).
  vm_compute. left. reflexivity.
Defined.

(** C5, as stated, fails for a sentence of exactly [max_chars] characters:
    ["ab.c"] with [max_chars = 2] has the chunk ["ab."] of three characters,
    and no sentence of the text is longer than two. *)
Lemma chunk_text_strict_bound_fails :
  chunk_text (lit "ab.c") 2 = [lit "ab."; lit "c."]
  /\ sentences (lit "ab.c") = [lit "ab"; lit "c"]
  /\ In (lit "ab.") (chunk_text (lit "ab.c") 2)
  /\ ~ within_strict_bound 2 (sentences (lit "ab.c")) (lit "ab.").
Proof.
  split; [reflexivity |]. split; [reflexivity |].
  split; [left; reflexivity |].
  intros [H | (s & Hin & Hl & _)].
  - vm_compute in H. now apply H.
  - destruct Hin as [<- | [<- | []]]; vm_compute in Hl; discriminate.
Qed.

(** C6, as amended.  A text of at most [max_chars] characters is returned
    as the only chunk.  For a longer text the sentences are cut into
    consecutive non-empty groups, one per chunk, none dropped and none
    repeated; reading a chunk back gives its group of sentences, in order,
    up to the whitespace that [strip] removed at the start of the chunk; and
    the last chunk is the buffer left when the sentences are over. *)
Theorem chunk_text_sentences (text : str) (max_chars : Z) :
  (len text <= max_chars -> chunk_text text max_chars = [text])
  /\ (max_chars < len text ->
      exists groups,
        concat groups = sentences text
        /\ Forall (fun g => g <> []) groups
        /\ map unpack (chunk_text text max_chars) = map lstrip_head groups
        /\ exists front,
             chunk_text text max_chars
             = front ++ [strip (snd (chunk_loop max_chars (sentences text)))]).
Proof.
  split.
  - intros H. unfold chunk_text. apply Z.leb_le in H. now rewrite H.
  - intros H.
    destruct (chunk_text_groups text max_chars H)
      as (groups & Hcat & Hne & Hchunks & Hlast).
    exists groups. repeat split; try assumption.
    rewrite Hchunks, map_map. apply map_ext_in.
    intros g Hg. apply unpack_strip_buffer.
    pose proof (split_pieces_clean DOT
                  (replace QUESTION DOT (replace BANG DOT text))) as Hclean.
    fold (sentences text) in Hclean. rewrite <- Hcat in Hclean.
    rewrite Forall_forall in Hclean |- *.
    intros s Hs. apply Hclean. apply in_concat. now exists g.
Qed.

Lemma chunk_text_sentences_witness :
  exists groups,
    concat groups = sentences (lit "Aa. Bb")
    /\ Forall (fun g => g <> []) groups
    /\ map unpack (chunk_text (lit "Aa. Bb") 4) = map lstrip_head groups
    /\ exists front,
         chunk_text (lit "Aa. Bb") 4
         = front ++ [strip (snd (chunk_loop 4 (sentences (lit "Aa. Bb"))))].
Proof.
  apply (proj2 (chunk_text_sentences (lit "Aa. Bb") 4)).
  vm_compute. reflexivity.
Defined.

(** C6, as stated, fails on the whitespace after a period: ["Aa. Bb"] with
    [max_chars = 4] has the sentences ["Aa"] and [" Bb"], and the chunks
    ["Aa."] and ["Bb."] give back ["Aa"] and ["Bb"]. *)
Lemma chunk_text_reconstruction_fails :
  sentences (lit "Aa. Bb") = [lit "Aa"; lit " Bb"]
  /\ chunk_text (lit "Aa. Bb") 4 = [lit "Aa."; lit "Bb."]
  /\ concat (map unpack (chunk_text (lit "Aa. Bb") 4)) = [lit "Aa"; lit "Bb"]
  /\ ~ reconstructs_exactly (lit "Aa. Bb") 4.
Proof.
  repeat split; try reflexivity.
  unfold reconstructs_exactly. vm_compute. discriminate.
Qed.

(* ===================================================================== *)
(** ** The client: fallback to the generate endpoint *)
(* ===================================================================== *)

Section ClientTheorems.

Context {R : Runtime}.

(** C7.  When the chat request is answered with status 404, [inference]
    sends exactly one more request, to [/api/generate], with the same model
    and the same prompt.  The 404 itself is not reported: the result is what
    the answer to the second request alone gives, and when that answer is a
    success carrying a text, the text is returned as it is. *)
Theorem inference_fallback (prompt model_name : str)
    (sink : option placeholder) (timeout : Z) (s s1 s2 : server)
    (r1 : response) (o2 : result response) :
  requests_post (chat_request prompt model_name timeout) s = (Ok r1, s1) ->
  status_code r1 = 404 ->
  requests_post (generate_request prompt model_name timeout) s1 = (o2, s2) ->
  let run := inference prompt model_name sink timeout s in
  posts (trace_of run)
  = [ Post {| url := MODEL_SERVER_URL ++ lit "/api/chat";
              json := ChatPayload model_name
                        [ {| role := lit "user"; content := prompt |} ] false;
              timeout := timeout |};
      Post {| url := MODEL_SERVER_URL ++ lit "/api/generate";
              json := GeneratePayload model_name prompt false;
              timeout := timeout |} ]
  /\ server_of run = s2
  /\ value_of run = value_of (conclude model_name timeout o2 s2)
  /\ (forall r2 d out,
        o2 = Ok r2 ->
        ~ (400 <= status_code r2 < 600) ->
        json_body r2 = Ok (PDict d) ->
        dict_lookup d (lit "message") = None ->
        dict_lookup d (lit "response") = Some out ->
        value_of run = Ok out).
Proof.
  intros H1 H404 H2 run.
  assert (Hrun : run = (value_of (conclude model_name timeout o2 s2), s2,
                        Call prompt model_name timeout
                        :: sink_steps sink
                           ++ [Post (chat_request prompt model_name timeout);
                               Post (generate_request prompt model_name timeout)])).
  { unfold run. rewrite inference_run, attempt_run, H1, H404, H2. reflexivity. }
  rewrite Hrun. unfold trace_of, server_of, value_of. cbn [fst snd].
  repeat split.
  - change (posts ([Call prompt model_name timeout] ++ sink_steps sink
                   ++ [Post (chat_request prompt model_name timeout);
                       Post (generate_request prompt model_name timeout)])
            = [Post (chat_request prompt model_name timeout);
               Post (generate_request prompt model_name timeout)]).
    rewrite !posts_app.
    destruct (sink_steps_quiet sink) as (_ & -> & _). reflexivity.
  - intros r2 d out -> Hst Hj Hm Hr.
    now rewrite (conclude_response _ _ _ _ _ _ Hst Hj Hm Hr).
Qed.

End ClientTheorems.

Lemma inference_fallback_witness :
  let run := inference (R := scripted) (lit "p") (lit "m") None 1000
               [not_found; generate_ok (lit "out")] in
  List.length (posts (trace_of run)) = 2%nat
  /\ server_of run = []
  /\ value_of run = Ok (PStr (lit "out")).
Proof.
  pose proof (inference_fallback (R := scripted) (lit "p") (lit "m") None 1000
                [not_found; generate_ok (lit "out")]
                [generate_ok (lit "out")] []
                {| status_code := 404;
                   json_body := Exc (RequestError (lit "no JSON")) |}
                (generate_ok (lit "out"))
                eq_refl eq_refl eq_refl) as (Hp & Hs & _ & Hv).
  cbv zeta. rewrite Hp. split; [reflexivity |]. split; [exact Hs |].
  eapply Hv.
  - reflexivity.
  - cbn. lia.
  - reflexivity.
  - reflexivity.
  - reflexivity.
Defined.

(* ===================================================================== *)
(** ** The orchestrator: summaries *)
(* ===================================================================== *)

Section SummaryTheorems.

Context {R : Runtime}.

(** C8.  For each of the three length classes and every text,
    [generate_summary] makes exactly one client call, whatever the length of
    the text.  The prompt of the call is the instruction with the directive
    of the class and the text itself in it: ["in 2-3 sentences"] for
    ["short"], ["in 1 paragraph (4-6 sentences)"] for ["medium"] and
    ["in 2-3 paragraphs with key details"] for ["long"]. *)
Theorem generate_summary_one_call (text summary_length model_name : str)
    (sink : option placeholder) (s : server) :
  In summary_length [lit "short"; lit "medium"; lit "long"] ->
  exists directive prompt,
    instruction_lookup length_instructions summary_length = Ok directive
    /\ calls (trace_of (generate_summary text summary_length model_name sink s))
       = [Call prompt model_name 1000]
    /\ contains prompt directive = true
    /\ contains prompt text = true
    /\ (summary_length = lit "short" -> directive = lit "in 2-3 sentences")
    /\ (summary_length = lit "medium"
        -> directive = lit "in 1 paragraph (4-6 sentences)")
    /\ (summary_length = lit "long"
        -> directive = lit "in 2-3 paragraphs with key details")
    /\ prompt
       = lit "Please provide a clear and concise summary of the following text "
         ++ directive ++ lit ":" ++ LF
         ++ LF
         ++ lit "Text: " ++ text ++ LF
         ++ LF
         ++ lit "Summary:".
Proof.
  intros Hin.
  assert (Hd : exists directive,
             instruction_lookup length_instructions summary_length = Ok directive
             /\ (summary_length = lit "short"
                 -> directive = lit "in 2-3 sentences")
             /\ (summary_length = lit "medium"
                 -> directive = lit "in 1 paragraph (4-6 sentences)")
             /\ (summary_length = lit "long"
                 -> directive = lit "in 2-3 paragraphs with key details")).
  { destruct Hin as [<- | [<- | [<- | []]]]; eexists;
      (split; [reflexivity |]); repeat split;
      intros H; try reflexivity; vm_compute in H; discriminate. }
  destruct Hd as (directive & Hlook & Hshort & Hmedium & Hlong).
  exists directive, (summary_prompt directive text).
  split; [exact Hlook |].
  split; [| split; [| split; [| repeat split; assumption]]].
  - rewrite (generate_summary_run _ _ _ _ _ _ Hlook).
    destruct (inference (summary_prompt directive text) model_name sink 1000 s)
      as [[r s1] t] eqn:E.
    exact (inference_calls _ _ _ _ _ _ _ _ E).
  - unfold summary_prompt. apply contains_skip, contains_here.
  - unfold summary_prompt. do 6 apply contains_skip. apply contains_here.
Qed.

End SummaryTheorems.

Lemma generate_summary_one_call_witness :
  exists directive prompt,
    instruction_lookup length_instructions (lit "short") = Ok directive
    /\ calls (trace_of (generate_summary (R := scripted) (letters "x" 500)
                          (lit "short") (lit "m") None
                          [chat_ok (lit "A summary.")]))
       = [Call prompt (lit "m") 1000]
    /\ contains prompt directive = true
    /\ contains prompt (letters "x" 500) = true
    /\ (lit "short" = lit "short" -> directive = lit "in 2-3 sentences")
    /\ (lit "short" = lit "medium"
        -> directive = lit "in 1 paragraph (4-6 sentences)")
    /\ (lit "short" = lit "long"
        -> directive = lit "in 2-3 paragraphs with key details")
    /\ prompt
       = lit "Please provide a clear and concise summary of the following text "
         ++ directive ++ lit ":" ++ LF
         ++ LF
         ++ lit "Text: " ++ letters "x" 500 ++ LF
         ++ LF
         ++ lit "Summary:".
Proof.
  apply (generate_summary_one_call (R := scripted)).
  left. reflexivity.
Defined.

(* ===================================================================== *)
(** ** The orchestrator: FAQ generation *)
(* ===================================================================== *)

Section FaqTheorems.

Context {R : Runtime}.

(** C1, as amended.  For a text of more than 3000 characters the value
    returned by [generate_faq_smart] is a failure message or a string of at
    most 10,000 characters.  For a text of at most 3000 characters the
    function is one client call whose result is returned as it is, with no
    truncation. *)
Theorem faq_output_bound (text : str) (num_questions : Z) (model_name : str)
    (sink : option placeholder) (s : server) :
  (3000 < len text ->
   forall v,
     value_of (generate_faq_smart text num_questions model_name sink s) = Ok v ->
     is_failure v = true \/ exists out, v = PStr out /\ len out <= 10000)
  /\ (len text <= 3000 ->
      generate_faq_smart text num_questions model_name sink s
      = inference (faq_prompt num_questions text) model_name sink 1000 s).
Proof.
  split; [| apply generate_faq_smart_short].
  intros Hlong v. rewrite generate_faq_smart_long by assumption. cbv zeta.
  destruct (faq_loop (questions_per_chunk text num_questions) model_name sink
              (len (chunk_text text 2500)) 0 (chunk_text text 2500) [] s)
    as [[r s1] t] eqn:E.
  destruct (faq_loop_calls _ _ _ _ _ _ _ _ _ _ _ E) as (k & _ & _ & _ & Hr).
  destruct r as [[l | faq] | e]; unfold value_of; cbn [fst].
  - intros [= <-]. right. exists (combined l). split; [reflexivity |].
    apply combined_len.
  - intros [= <-]. now left.
  - discriminate.
Qed.

(** C2.  In the long path, when the calls for the chunks before some chunk
    succeed and the call for that chunk returns a failure message, the
    function returns that message and nothing else, and the client calls
    made are the calls for the chunks up to that one: no call is made for a
    later chunk, and the earlier outputs are dropped. *)
Theorem faq_stops_at_failure (text : str) (num_questions : Z)
    (model_name : str) (sink : option placeholder) (s s1 s2 : server)
    (pre : list str) (chunk : str) (post : list str) (outs : list str)
    (f : str) (t2 : list event) :
  3000 < len text ->
  chunk_text text 2500 = pre ++ chunk :: post ->
  all_succeed (questions_per_chunk text num_questions) model_name pre s outs s1 ->
  inference (chunk_prompt (questions_per_chunk text num_questions) chunk)
    model_name None 1000 s1 = (Ok (PStr f), s2, t2) ->
  startswith f CROSS = true ->
  let run := generate_faq_smart text num_questions model_name sink s in
  value_of run = Ok (PStr f)
  /\ server_of run = s2
  /\ calls (trace_of run)
     = map (chunk_call (questions_per_chunk text num_questions) model_name)
         (pre ++ [chunk]).
Proof.
  intros Hlong Hchunks Hpre Hfail Hx.
  exact (generate_faq_abort text num_questions model_name sink s s1 s2
           pre chunk post outs f t2 Hlong Hchunks Hpre Hfail Hx).
Qed.

(** C3, as amended.  For a text of at most 3000 characters
    [generate_faq_smart] makes exactly one client call.  For a longer text
    it chunks the text with [max_chars = 2500] and calls the client once per
    chunk, in chunk order, up to the first call that does not succeed: the
    calls made are the calls for the first [k] chunks, with [1 <= k], and
    for all the chunks when the function returns a string that is not a
    failure message. *)
Theorem faq_client_calls (text : str) (num_questions : Z) (model_name : str)
    (sink : option placeholder) (s : server) :
  let run := generate_faq_smart text num_questions model_name sink s in
  (len text <= 3000 ->
   calls (trace_of run) = [Call (faq_prompt num_questions text) model_name 1000])
  /\ (3000 < len text ->
      exists k,
        (1 <= k <= List.length (chunk_text text 2500))%nat
        /\ calls (trace_of run)
           = map (chunk_call (questions_per_chunk text num_questions) model_name)
               (firstn k (chunk_text text 2500))
        /\ (forall out,
              value_of run = Ok (PStr out) ->
              startswith out CROSS = false ->
              k = List.length (chunk_text text 2500))).
Proof.
  intros run. unfold run. split.
  - intros Hshort. rewrite generate_faq_smart_short by assumption.
    destruct (inference (faq_prompt num_questions text) model_name sink 1000 s)
      as [[r s1] t] eqn:E.
    exact (inference_calls _ _ _ _ _ _ _ _ E).
  - apply generate_faq_calls.
Qed.

(** C4.  In the long path every client call asks for
    [max(2, num_questions // len(chunks))] questions, the same number for
    every chunk; when every chunk call succeeds there is exactly one call
    per chunk and the result is the outputs joined by a blank line (cut at
    10,000 characters).  With three chunks and six questions the number
    is 2. *)
Theorem faq_questions_per_chunk (text : str) (num_questions : Z)
    (model_name : str) (sink : option placeholder) (s : server) :
  3000 < len text ->
  let chunks := chunk_text text 2500 in
  let q := Z.max 2 (num_questions / len chunks) in
  let run := generate_faq_smart text num_questions model_name sink s in
  (exists k,
     calls (trace_of run)
     = map (fun chunk => Call (chunk_prompt q chunk) model_name 1000)
         (firstn k chunks))
  /\ (forall chunk,
        contains (chunk_prompt q chunk)
          (lit "generate " ++ str_of_int q
           ++ lit " frequently asked questions (FAQ)") = true)
  /\ (forall outs s1,
        all_succeed q model_name chunks s outs s1 ->
        value_of run
        = Ok (PStr (slice_to (join (LF ++ LF) outs)
                      (Z.min (len (join (LF ++ LF) outs)) 10000)))
        /\ server_of run = s1
        /\ calls (trace_of run)
           = map (fun chunk => Call (chunk_prompt q chunk) model_name 1000)
               chunks)
  /\ (len chunks = 3 -> num_questions = 6 -> q = 2).
Proof.
  intros Hlong chunks q run.
  assert (Hq : q = questions_per_chunk text num_questions) by reflexivity.
  split; [| split; [| split]].
  - destruct (generate_faq_calls text num_questions model_name sink s Hlong)
      as (k & _ & Hc & _).
    exists k. exact Hc.
  - intros chunk. apply chunk_prompt_asks.
  - intros outs s1 Hall. unfold run.
    rewrite generate_faq_smart_long by assumption. cbv zeta.
    fold chunks. rewrite <- Hq.
    destruct (faq_loop_complete q model_name sink (len chunks) chunks s outs s1
                Hall 0 []) as (t & -> & Hc).
    unfold value_of, server_of, trace_of. cbn [fst snd app].
    repeat split.
    rewrite calls_app. destruct (sink_empty_quiet sink) as (-> & _ & _).
    rewrite app_nil_r. exact Hc.
  - intros H3 H6. unfold q. rewrite H3, H6. reflexivity.
Qed.

(** C9.  With a progress sink or without one, [generate_summary] and
    [generate_faq_smart] return the same value and leave the model server
    in the same state; the sink adds progress output to the trace and
    nothing else. *)
Theorem sink_changes_progress_only (p : placeholder) (text model_name : str)
    (s : server) :
  (forall summary_length,
     let shown := generate_summary text summary_length model_name (Some p) s in
     let quiet := generate_summary text summary_length model_name None s in
     value_of shown = value_of quiet
     /\ server_of shown = server_of quiet
     /\ silent (trace_of shown) = trace_of quiet)
  /\ (forall num_questions,
        let shown := generate_faq_smart text num_questions model_name (Some p) s in
        let quiet := generate_faq_smart text num_questions model_name None s in
        value_of shown = value_of quiet
        /\ server_of shown = server_of quiet
        /\ silent (trace_of shown) = trace_of quiet).
Proof.
  split.
  - intros summary_length shown quiet. unfold shown, quiet.
    destruct (instruction_lookup length_instructions summary_length)
      as [directive | e] eqn:Hlook.
    + rewrite !(generate_summary_run _ _ _ _ _ _ Hlook).
      destruct (inference (summary_prompt directive text) model_name None 1000 s)
        as [[r s1] t] eqn:E.
      destruct (inference_sink _ _ p _ _ _ _ _ E) as (t' & -> & Hs).
      repeat split. exact Hs.
    + rewrite !(generate_summary_key_error _ _ _ _ _ _ Hlook).
      repeat split.
  - intros num_questions shown quiet. unfold shown, quiet.
    destruct (Z.le_gt_cases (len text) 3000) as [Hshort | Hlong].
    + rewrite !generate_faq_smart_short by assumption.
      destruct (inference (faq_prompt num_questions text) model_name None 1000 s)
        as [[r s1] t] eqn:E.
      destruct (inference_sink _ _ p _ _ _ _ _ E) as (t' & -> & Hs).
      repeat split. exact Hs.
    + rewrite !generate_faq_smart_long by assumption. cbv zeta.
      destruct (faq_loop (questions_per_chunk text num_questions) model_name None
                  (len (chunk_text text 2500)) 0 (chunk_text text 2500) [] s)
        as [[r s1] t] eqn:E.
      destruct (faq_loop_sink _ _ p _ _ _ _ _ _ _ _ E) as (t' & -> & Hs).
      destruct r as [[l | faq] | e];
        unfold value_of, server_of, trace_of; cbn [fst snd];
        repeat split; try exact Hs.
      rewrite silent_app, Hs. reflexivity.
Qed.

(** C10.  In the long path the orchestrator tells failure from success by
    the first character of the string the client call returns, and by
    nothing else.  A payload of the model that starts with the cross mark,
    delivered by a successful HTTP exchange, ends the loop like a failure:
    it is returned as the overall result and no later chunk is processed. *)
Theorem faq_payload_with_cross (text : str) (num_questions : Z)
    (model_name : str) (sink : option placeholder) (s s1 s2 : server)
    (pre : list str) (chunk : str) (post : list str) (outs : list str)
    (r : response) (d m : list (str * pyval)) (payload : str) :
  3000 < len text ->
  chunk_text text 2500 = pre ++ chunk :: post ->
  all_succeed (questions_per_chunk text num_questions) model_name pre s outs s1 ->
  requests_post
    (chat_request (chunk_prompt (questions_per_chunk text num_questions) chunk)
       model_name 1000) s1 = (Ok r, s2) ->
  status_code r = 200 ->
  json_body r = Ok (PDict d) ->
  dict_lookup d (lit "message") = Some (PDict m) ->
  dict_lookup m (lit "content") = Some (PStr payload) ->
  startswith payload CROSS = true ->
  let run := generate_faq_smart text num_questions model_name sink s in
  (value_of run = Ok (PStr payload)
   /\ server_of run = s2
   /\ calls (trace_of run)
      = map (chunk_call (questions_per_chunk text num_questions) model_name)
          (pre ++ [chunk]))
  /\ (forall q total i c rest all_faqs s0 out s' t,
        inference (chunk_prompt q c) model_name None 1000 s0
          = (Ok (PStr out), s', t) ->
        value_of (faq_loop q model_name sink total i (c :: rest) all_faqs s0)
        = if startswith out CROSS then Ok (inr (PStr out))
          else value_of (faq_loop q model_name sink total (i + 1) rest
                           (all_faqs ++ [out]) s')).
Proof.
  intros Hlong Hchunks Hpre Hpost Hst Hj Hm Hc Hx run. split.
  - assert (Hcode : ~ (400 <= status_code r < 600)) by lia.
    pose proof (inference_chat_message _ _ _ _ _ _ _ _ _ Hpost Hcode Hj Hm Hc)
      as Hrun.
    exact (generate_faq_abort text num_questions model_name sink s s1 s2
             pre chunk post outs payload _ Hlong Hchunks Hpre Hrun Hx).
  - intros q total i c rest all_faqs s0 out s' t Hrun.
    rewrite faq_loop_cons, Hrun.
    destruct (startswith out CROSS); [reflexivity |].
    destruct (faq_loop q model_name sink total (i + 1) rest (all_faqs ++ [out]) s')
      as [[r2 s3] t3].
    reflexivity.
Qed.

End FaqTheorems.

(* ===================================================================== *)
(** ** The theorems at concrete inputs *)
(* ===================================================================== *)

Lemma faq_output_bound_witness :
  is_failure (PStr (lit "Q1" ++ LF ++ LF ++ lit "Q2")) = true
  \/ exists out,
       PStr (lit "Q1" ++ LF ++ LF ++ lit "Q2") = PStr out /\ len out <= 10000.
Proof.
  apply (proj1 (faq_output_bound (R := scripted) two_sections 6 (lit "m") None
                  [chat_ok (lit "Q1"); chat_ok (lit "Q2")])).
  - vm_compute. reflexivity.
  - vm_compute. reflexivity.
Defined.

(** C1, as stated, fails in the short path: for the text ["hi"] and a model
    that answers with 10,001 characters, the answer is returned whole. *)
Lemma faq_short_output_unbounded :
  len (lit "hi") <= 3000
  /\ value_of (generate_faq_smart (R := scripted) (lit "hi") 6 (lit "m") None
                 [chat_ok (letters "a" 10001)])
     = Ok (PStr (letters "a" 10001))
  /\ startswith (letters "a" 10001) CROSS = false
  /\ len (letters "a" 10001) = 10001.
Proof.
  split; [vm_compute; discriminate |].
  split; [vm_compute; reflexivity |].
  split; vm_compute; reflexivity.
Qed.

Lemma faq_stops_at_failure_witness :
  let run := generate_faq_smart (R := scripted) two_sections 6 (lit "m") None
               [chat_ok (lit "Q1")] in
  value_of run
  = Ok (PStr (ERROR ++ lit "Model server is not running. Please start the model server."))
  /\ server_of run = []
  /\ calls (trace_of run)
     = map (chunk_call (questions_per_chunk two_sections 6) (lit "m"))
         ([letters "a" 2000 ++ [DOT]] ++ [letters "b" 2000 ++ [DOT]]).
Proof.
  eapply (faq_stops_at_failure (R := scripted) two_sections 6 (lit "m") None
            [chat_ok (lit "Q1")] [] []
            [letters "a" 2000 ++ [DOT]] (letters "b" 2000 ++ [DOT]) []).
  - vm_compute. reflexivity.
  - vm_compute. reflexivity.
  - eapply all_succeed_cons.
    + vm_compute. reflexivity.
    + reflexivity.
    + apply all_succeed_nil.
  - vm_compute. reflexivity.
  - reflexivity.
Defined.

Lemma faq_client_calls_witness :
  exists k,
    (1 <= k <= List.length (chunk_text two_sections 2500))%nat
    /\ calls (trace_of (generate_faq_smart (R := scripted) two_sections 6
                          (lit "m") None []))
       = map (chunk_call (questions_per_chunk two_sections 6) (lit "m"))
           (firstn k (chunk_text two_sections 2500))
    /\ (forall out,
          value_of (generate_faq_smart (R := scripted) two_sections 6
                      (lit "m") None []) = Ok (PStr out) ->
          startswith out CROSS = false ->
          k = List.length (chunk_text two_sections 2500)).
Proof.
  apply (proj2 (faq_client_calls (R := scripted) two_sections 6 (lit "m") None [])).
  vm_compute. reflexivity.
Defined.

(** C3, as stated, fails when a chunk call fails: the text of two chunks,
    sent to a server that refuses the connection, gets one client call. *)
Lemma faq_calls_fewer_than_chunks :
  3000 < len two_sections
  /\ List.length (chunk_text two_sections 2500) = 2%nat
  /\ List.length
       (calls (trace_of (generate_faq_smart (R := scripted) two_sections 6
                           (lit "m") None []))) = 1%nat
  /\ calls (trace_of (generate_faq_smart (R := scripted) two_sections 6
                        (lit "m") None []))
     <> map (chunk_call (questions_per_chunk two_sections 6) (lit "m"))
          (chunk_text two_sections 2500).
Proof.
  split; [vm_compute; reflexivity |].
  split; [vm_compute; reflexivity |].
  split; [vm_compute; reflexivity |].
  intros H. apply (f_equal (@List.length event)) in H.
  vm_compute in H. discriminate.
Qed.

Lemma faq_questions_per_chunk_witness :
  let run := generate_faq_smart (R := scripted) three_sections 6 (lit "m") None
               [chat_ok (lit "Q1"); chat_ok (lit "Q2"); chat_ok (lit "Q3")] in
  List.length (chunk_text three_sections 2500) = 3%nat
  /\ value_of run
     = Ok (PStr (lit "Q1" ++ LF ++ LF ++ lit "Q2" ++ LF ++ LF ++ lit "Q3"))
  /\ calls (trace_of run)
     = map (fun chunk => Call (chunk_prompt 2 chunk) (lit "m") 1000)
         (chunk_text three_sections 2500).
Proof.
  assert (Hlong : 3000 < len three_sections) by (vm_compute; reflexivity).
  destruct (faq_questions_per_chunk (R := scripted) three_sections 6 (lit "m")
              None [chat_ok (lit "Q1"); chat_ok (lit "Q2"); chat_ok (lit "Q3")]
              Hlong) as (_ & _ & Hall & Hq).
  assert (H2 : Z.max 2 (6 / len (chunk_text three_sections 2500)) = 2)
    by (apply Hq; vm_compute; reflexivity).
  rewrite H2 in Hall.
  destruct (Hall [lit "Q1"; lit "Q2"; lit "Q3"] []) as (Hv & _ & Hc).
  - assert (E : chunk_text three_sections 2500
                = [letters "a" 1999 ++ [DOT]; letters "b" 1999 ++ [DOT];
                   letters "c" 1999 ++ [DOT; DOT]])
      by (vm_compute; reflexivity).
    rewrite E.
    eapply all_succeed_cons; [vm_compute; reflexivity | reflexivity |].
    eapply all_succeed_cons; [vm_compute; reflexivity | reflexivity |].
    eapply all_succeed_cons; [vm_compute; reflexivity | reflexivity |].
    apply all_succeed_nil.
  - cbv zeta. split; [vm_compute; reflexivity |].
    split; [exact Hv | exact Hc].
Defined.

Lemma faq_payload_with_cross_witness :
  let run := generate_faq_smart (R := scripted) two_sections 6 (lit "m") None
               [chat_ok (CROSS ++ lit " is only a symbol");
                chat_ok (lit "Q2")] in
  value_of run = Ok (PStr (CROSS ++ lit " is only a symbol"))
  /\ server_of run = [chat_ok (lit "Q2")]
  /\ calls (trace_of run)
     = map (chunk_call (questions_per_chunk two_sections 6) (lit "m"))
         ([] ++ [letters "a" 2000 ++ [DOT]]).
Proof.
  eapply (proj1 (faq_payload_with_cross (R := scripted) two_sections 6 (lit "m")
                   None
                   [chat_ok (CROSS ++ lit " is only a symbol"); chat_ok (lit "Q2")]
                   [chat_ok (CROSS ++ lit " is only a symbol"); chat_ok (lit "Q2")]
                   [chat_ok (lit "Q2")]
                   [] (letters "a" 2000 ++ [DOT]) [letters "b" 2000 ++ [DOT]] []
                   _ _ _ (CROSS ++ lit " is only a symbol")
                   _ _ _ _ _ _ _ _ _)).
  Unshelve.
  all: try (vm_compute; reflexivity).
  all: try apply all_succeed_nil.
Defined.

(* ===================================================================== *)
(** ** Further properties of the chunker *)
(* ===================================================================== *)

Lemma lstrip_idempotent (s : str) : lstrip (lstrip s) = lstrip s.
Proof.
  induction s as [| c s IH]; [reflexivity |].
  simpl. destruct (isspace c) eqn:E; [exact IH |].
  simpl. now rewrite E.
Qed.

Lemma lstrip_subset (x : char) (s : str) : In x (lstrip s) -> In x s.
Proof.
  induction s as [| c s IH]; simpl; [tauto |].
  destruct (isspace c); simpl; tauto.
Qed.

Lemma strip_subset (x : char) (s : str) : In x (strip s) -> In x s.
Proof.
  unfold strip, rstrip. intros H.
  apply in_rev, lstrip_subset, in_rev in H. now apply lstrip_subset.
Qed.

Lemma buffer_of_chars (x : char) (g : list str) :
  In x (buffer_of g) -> x = DOT \/ exists s, In s g /\ In x s.
Proof.
  induction g as [| s g IH]; [intros [] |].
  rewrite buffer_of_cons. intros H. apply in_app_or in H.
  destruct H as [H | [H | H]].
  - right. exists s. split; [now left | assumption].
  - left. now symmetry.
  - destruct (IH H) as [E | (s' & Hs' & Hx)]; [now left |].
    right. exists s'. split; [now right | assumption].
Qed.

Lemma split_chars (sep x : char) (s p : str) :
  In p (split sep s) -> In x p -> In x s.
Proof.
  revert p. induction s as [| c s IH]; simpl; intros p Hp Hx.
  - destruct Hp as [<- | []]. destruct Hx.
  - destruct (N.eqb c sep).
    + destruct Hp as [<- | Hp]; [destruct Hx |]. right. eauto.
    + destruct (split sep s) as [| q qs] eqn:E.
      * destruct Hp as [<- | []]. destruct Hx as [-> | []]. now left.
      * destruct Hp as [<- | Hp].
        -- destruct Hx as [-> | Hx]; [now left |]. right.
           apply (IH q); [now left | assumption].
        -- right. apply (IH p); [now right | assumption].
Qed.

Lemma replace_removes (old new x : char) (s : str) :
  new <> old -> x = old -> ~ In x (replace old new s).
Proof.
  intros Hn -> H. unfold replace in H. apply in_map_iff in H.
  destruct H as (c & Hc & _).
  destruct (N.eqb_spec c old); congruence.
Qed.

Lemma replace_keeps_out (old new x : char) (s : str) :
  x <> new -> ~ In x s -> ~ In x (replace old new s).
Proof.
  intros Hn Hs H. unfold replace in H. apply in_map_iff in H.
  destruct H as (c & Hc & Hin).
  destruct (N.eqb_spec c old); [congruence |]. subst c. contradiction.
Qed.

Lemma total_len_cons (s : str) (l : list str) :
  total_len (s :: l) = len s + total_len l.
Proof. reflexivity. Qed.

Lemma total_len_app (a b : list str) :
  total_len (a ++ b) = total_len a + total_len b.
Proof.
  induction a as [| s a IH]; [reflexivity |].
  cbn [app]. rewrite !total_len_cons, IH. lia.
Qed.

Lemma len_cons {A : Type} (x : A) (l : list A) : len (x :: l) = 1 + len l.
Proof. unfold len. cbn [List.length]. lia. Qed.

Lemma len_map {A B : Type} (f : A -> B) (l : list A) : len (map f l) = len l.
Proof. unfold len. now rewrite length_map. Qed.

(** The pieces of a split, each counted with one separator, make the
    string and one separator more. *)
Lemma split_total (sep : char) (s : str) :
  total_len (map (fun p => p ++ [sep]) (split sep s)) = len s + 1.
Proof.
  induction s as [| c s IH]; [reflexivity |].
  cbn [split]. destruct (N.eqb c sep).
  - cbn [map app]. rewrite total_len_cons, IH, !len_cons.
    change (len (@nil char)) with 0. lia.
  - destruct (split sep s) as [| p ps] eqn:E; cbn [map app] in *.
    + exfalso. exact (split_not_nil sep s E).
    + rewrite total_len_cons in *. rewrite len_cons.
      revert IH. generalize (len (p ++ [sep])).
      generalize (total_len (map (fun p0 => p0 ++ [sep]) ps)).
      rewrite len_cons. intros. lia.
Qed.

Lemma buffer_len_cons (s : str) (g : list str) :
  len (buffer_of (s :: g)) = len (s ++ [DOT]) + len (buffer_of g).
Proof.
  rewrite buffer_of_cons, !len_app, len_cons. change (len [DOT]) with 1. lia.
Qed.

Lemma buffer_total (groups : list (list str)) :
  total_len (map buffer_of groups)
  = total_len (map (fun s => s ++ [DOT]) (concat groups)).
Proof.
  induction groups as [| g groups IH]; [reflexivity |].
  rewrite concat_cons, map_cons, map_app, total_len_app, total_len_cons.
  apply (f_equal2 Z.add); [| exact IH].
  clear IH. induction g as [| s g IHg]; [reflexivity |].
  cbn [map]. rewrite total_len_cons, <- IHg. apply buffer_len_cons.
Qed.

Lemma strip_total (groups : list (list str)) :
  total_len (map (fun g => strip (buffer_of g)) groups)
  <= total_len (map buffer_of groups).
Proof.
  induction groups as [| g groups IH]; [reflexivity |].
  cbn [map]. rewrite !total_len_cons.
  pose proof (strip_len (buffer_of g)). lia.
Qed.

Lemma groups_count (groups : list (list str)) :
  Forall (fun g => g <> []) groups ->
  (List.length groups <= List.length (concat groups))%nat.
Proof.
  induction 1 as [| g groups Hg _ IH]; simpl; [lia |].
  rewrite length_app. destruct g; [contradiction |]. simpl. lia.
Qed.

Lemma tightly_packed_last (max_chars : Z) (groups : list (list str))
    (g g' : list str) :
  hd [] g' = hd [] g ->
  tightly_packed max_chars (groups ++ [g]) ->
  tightly_packed max_chars (groups ++ [g']).
Proof.
  intros Hhd. induction groups as [| a groups IH]; simpl; [tauto |].
  intros [H1 H2]. split; [| now apply IH].
  destruct groups as [| b groups]; simpl in *; [now rewrite Hhd | assumption].
Qed.

Lemma tightly_packed_snoc (max_chars : Z) (groups : list (list str))
    (g g' : list str) :
  max_chars <= len (buffer_of g) + len (hd [] g') ->
  tightly_packed max_chars (groups ++ [g]) ->
  tightly_packed max_chars ((groups ++ [g]) ++ [g']).
Proof.
  intros Hfit. induction groups as [| a groups IH]; simpl.
  - tauto.
  - intros [H1 H2]. split; [| now apply IH].
    destruct groups as [| b groups]; simpl in *; assumption.
Qed.

Lemma chunk_step_packed (max_chars : Z) (st : list str * str)
    (groups : list (list str)) (g : list str) (s : str) :
  packed_state max_chars st groups g ->
  exists groups' g',
    packed_state max_chars (chunk_step max_chars st s) groups' g'
    /\ concat groups' ++ g' = (concat groups ++ g) ++ [s]
    /\ g' <> [].
Proof.
  intros [[Hc Hb Hn] Hp Hf]. destruct st as [chunks cur]. simpl in Hc, Hb.
  unfold chunk_step.
  destruct (Z.ltb_spec (len cur + len s) max_chars) as [Hlt | Hge].
  - exists groups, (g ++ [s]). split; [| split].
    + constructor.
      * constructor; simpl; try assumption.
        rewrite buffer_of_snoc. now rewrite Hb.
      * destruct g as [| x g].
        -- rewrite (Hf eq_refl). simpl. tauto.
        -- now apply tightly_packed_last with (g := x :: g).
      * intros E. destruct g; discriminate.
    + now rewrite app_assoc.
    + destruct g; discriminate.
  - destruct (truthy cur) eqn:Ht.
    + exists (groups ++ [g]), [s]. split; [| split].
      * constructor.
        -- constructor; simpl.
           ++ rewrite map_app. simpl. now rewrite Hc, Hb.
           ++ now rewrite buffer_of_cons.
           ++ apply Forall_app. split; [assumption |].
              constructor; [| constructor].
              intros ->. subst cur. discriminate.
        -- apply tightly_packed_snoc; [| assumption].
           simpl. rewrite <- Hb. lia.
        -- discriminate.
      * rewrite concat_app. simpl. now rewrite app_nil_r.
      * discriminate.
    + rewrite Hb in Ht. apply buffer_of_truthy in Ht. subst g.
      rewrite (Hf eq_refl) in *.
      exists [], [s]. split; [| split].
      * constructor.
        -- constructor; simpl; try assumption. now rewrite buffer_of_cons.
        -- simpl. tauto.
        -- reflexivity.
      * reflexivity.
      * discriminate.
Qed.

Lemma chunk_fold_packed (max_chars : Z) (sents : list str) :
  forall st groups g,
    packed_state max_chars st groups g ->
    sents <> [] ->
    exists groups' g',
      packed_state max_chars (fold_left (chunk_step max_chars) sents st)
        groups' g'
      /\ concat groups' ++ g' = (concat groups ++ g) ++ sents
      /\ g' <> [].
Proof.
  induction sents as [| s sents IH]; intros st groups g Hst Hne;
    [contradiction |].
  destruct (chunk_step_packed max_chars st groups g s Hst)
    as (groups1 & g1 & Hst1 & Hcat1 & Hg1).
  destruct sents as [| s' sents'].
  - exists groups1, g1. simpl. auto.
  - destruct (IH _ _ _ Hst1) as (groups2 & g2 & Hst2 & Hcat2 & Hg2);
      [discriminate |].
    exists groups2, g2. split; [exact Hst2 | split; [| exact Hg2]].
    rewrite Hcat2, Hcat1, <- app_assoc. reflexivity.
Qed.

(** The long path of [chunk_text] as a tight grouping of the sentences. *)
Lemma chunk_text_packed (text : str) (max_chars : Z) :
  max_chars < len text ->
  exists groups,
    concat groups = sentences text
    /\ Forall (fun g => g <> []) groups
    /\ chunk_text text max_chars = map (fun g => strip (buffer_of g)) groups
    /\ tightly_packed max_chars groups.
Proof.
  intros Hlong. unfold chunk_text.
  destruct (Z.leb_spec (len text) max_chars) as [H | _]; [lia |].
  assert (H0 : packed_state max_chars ([], []) [] []).
  { constructor; [constructor; simpl; auto | simpl; tauto | reflexivity]. }
  destruct (chunk_fold_packed max_chars (sentences text) _ _ _ H0
              (split_not_nil _ _))
    as (groups & g & [[Hc Hb Hn] Hp _] & Hcat & Hg).
  fold (chunk_loop max_chars (sentences text)) in Hc, Hb.
  destruct (chunk_loop max_chars (sentences text)) as [chunks cur].
  simpl in Hc, Hb, Hcat |- *.
  destruct (truthy cur) eqn:Ht.
  - exists (groups ++ [g]). repeat split.
    + rewrite concat_app. simpl. now rewrite app_nil_r.
    + apply Forall_app. split; [assumption |]. now repeat constructor.
    + rewrite map_app. simpl. now rewrite Hc, Hb.
    + assumption.
  - rewrite Hb in Ht. apply buffer_of_truthy in Ht. contradiction.
Qed.

(** X1.  For a text longer than [max_chars] every chunk ends with a period
    (so it is not empty) and has no whitespace at its start or its end. *)
Theorem chunk_text_chunk_shape (text : str) (max_chars : Z) (c : str) :
  max_chars < len text ->
  In c (chunk_text text max_chars) ->
  (exists a, c = a ++ [DOT]) /\ strip c = c.
Proof.
  intros Hlong Hin.
  destruct (chunk_text_groups text max_chars Hlong)
    as (groups & _ & Hne & Hchunks & _).
  rewrite Hchunks in Hin. apply in_map_iff in Hin.
  destruct Hin as (g & <- & Hg).
  rewrite Forall_forall in Hne. specialize (Hne g Hg).
  destruct g as [| s g]; [contradiction |].
  rewrite strip_buffer. simpl lstrip_head. split.
  - apply buffer_ends_with_dot.
  - rewrite strip_buffer. simpl lstrip_head. now rewrite lstrip_idempotent.
Qed.

Lemma chunk_text_chunk_shape_witness :
  (exists a, lit "Bb." = a ++ [DOT]) /\ strip (lit "Bb.") = lit "Bb.".
Proof.
  apply (chunk_text_chunk_shape (lit "Aa. Bb") 4 (lit "Bb.")).
  - vm_compute. reflexivity.
  - vm_compute. right. left. reflexivity.
Defined.

(** X2.  [chunk_text] returns at least one chunk and at most as many chunks
    as the text has sentences: every chunk holds at least one whole
    sentence. *)
Theorem chunk_text_count (text : str) (max_chars : Z) :
  (1 <= List.length (chunk_text text max_chars)
   <= List.length (sentences text))%nat.
Proof.
  destruct (Z.le_gt_cases (len text) max_chars) as [Hshort | Hlong].
  - unfold chunk_text. apply Z.leb_le in Hshort. rewrite Hshort.
    pose proof (split_not_nil DOT (replace QUESTION DOT (replace BANG DOT text))) as H.
    fold (sentences text) in H. destruct (sentences text); [contradiction |].
    simpl. lia.
  - destruct (chunk_text_groups text max_chars Hlong)
      as (groups & Hcat & Hne & Hchunks & _).
    pose proof (chunk_text_not_nil text max_chars) as Hnil.
    rewrite Hchunks in *. rewrite length_map, <- Hcat.
    pose proof (groups_count groups Hne).
    destruct groups; [contradiction |]. simpl in *. lia.
Qed.

(** X3.  For a text longer than [max_chars] no chunk contains an
    exclamation mark or a question mark: every sentence terminator of the
    text reaches the model as a period. *)
Theorem chunk_text_terminators (text : str) (max_chars : Z) (c : str) :
  max_chars < len text ->
  In c (chunk_text text max_chars) ->
  ~ In BANG c /\ ~ In QUESTION c.
Proof.
  intros Hlong Hin.
  destruct (chunk_text_groups text max_chars Hlong)
    as (groups & Hcat & _ & Hchunks & _).
  rewrite Hchunks in Hin. apply in_map_iff in Hin.
  destruct Hin as (g & <- & Hg).
  assert (Hmark : forall x, x <> DOT ->
            ~ In x (replace QUESTION DOT (replace BANG DOT text)) ->
            ~ In x (strip (buffer_of g))).
  { intros x Hx Hout H. apply strip_subset, buffer_of_chars in H.
    destruct H as [E | (s & Hs & Hxs)]; [contradiction |].
    apply Hout. apply (split_chars DOT x _ s); [| assumption].
    fold (sentences text). rewrite <- Hcat. apply in_concat. now exists g. }
  split; apply Hmark; try discriminate.
  - apply replace_keeps_out; [discriminate |].
    apply replace_removes; [discriminate | reflexivity].
  - apply replace_removes; [discriminate | reflexivity].
Qed.

Lemma chunk_text_terminators_witness :
  ~ In BANG (lit "Stop.") /\ ~ In QUESTION (lit "Stop.").
Proof.
  apply (chunk_text_terminators (lit "Stop! Why?") 7 (lit "Stop.")).
  - vm_compute. reflexivity.
  - vm_compute. left. reflexivity.
Defined.

(** X4.  The chunks together are never longer than the text and one
    period: chunking adds one trailing period and otherwise only drops
    whitespace. *)
Theorem chunk_text_total (text : str) (max_chars : Z) :
  total_len (chunk_text text max_chars) <= len text + 1.
Proof.
  destruct (Z.le_gt_cases (len text) max_chars) as [Hshort | Hlong].
  - unfold chunk_text. apply Z.leb_le in Hshort. rewrite Hshort.
    simpl. lia.
  - destruct (chunk_text_groups text max_chars Hlong)
      as (groups & Hcat & _ & Hchunks & _).
    rewrite Hchunks.
    pose proof (strip_total groups) as H1.
    rewrite buffer_total, Hcat in H1. unfold sentences in H1.
    rewrite split_total in H1. unfold replace in H1.
    rewrite !len_map in H1. exact H1.
Qed.

(** X5.  For a text longer than [max_chars] the chunks are packed
    greedily: a new chunk starts only at a sentence that failed the test
    [len(current_chunk) + len(sentence) < max_chars] against the buffer of
    the chunk before it. *)
Theorem chunk_text_greedy (text : str) (max_chars : Z) :
  max_chars < len text ->
  exists groups,
    concat groups = sentences text
    /\ chunk_text text max_chars = map (fun g => strip (buffer_of g)) groups
    /\ tightly_packed max_chars groups.
Proof.
  intros Hlong.
  destruct (chunk_text_packed text max_chars Hlong)
    as (groups & Hcat & _ & Hchunks & Hp).
  exists groups. auto.
Qed.

Lemma chunk_text_greedy_witness :
  exists groups,
    concat groups = sentences (lit "Aa. Bb")
    /\ chunk_text (lit "Aa. Bb") 4 = map (fun g => strip (buffer_of g)) groups
    /\ tightly_packed 4 groups.
Proof.
  apply (chunk_text_greedy (lit "Aa. Bb") 4).
  vm_compute. reflexivity.
Defined.

(* ===================================================================== *)
(** ** Further properties of the client *)
(* ===================================================================== *)

Lemma error_is_failure (x : str) : is_failure (PStr (ERROR ++ x)) = true.
Proof. reflexivity. Qed.

Lemma str_eqb_eq (a b : str) : str_eqb a b = true -> a = b.
Proof.
  revert b. induction a as [| x a IH]; intros [| y b]; simpl;
    try discriminate; [reflexivity |].
  intros H. apply andb_prop in H. destruct H as [H1 H2].
  apply N.eqb_eq in H1. now rewrite H1, (IH b H2).
Qed.

Section ClientMore.

Context {R : Runtime}.

Lemma handler_failure (model_name : str) (timeout : Z) (e : exn) (s : server) :
  forall v,
    value_of (inference_handler model_name timeout e s) = Ok v ->
    is_failure v = true.
Proof.
  intros v. unfold inference_handler, value_of, ret, raise.
  destruct e as [d | d | [code |] d | d | x | x a | k |]; cbn [fst];
    try (intros [= <-]; apply error_is_failure).
  destruct (code =? 404); cbn [fst]; intros [= <-]; apply error_is_failure.
Qed.

Lemma conclude_exception (model_name : str) (timeout : Z) (e : exn)
    (s : server) :
  value_of (conclude model_name timeout (Exc e) s)
  = value_of (inference_handler model_name timeout e s).
Proof.
  unfold conclude, try_except, bind, lift, value_of.
  destruct (inference_handler model_name timeout e s) as [[r s1] t].
  reflexivity.
Qed.

Lemma conclude_status_error (model_name : str) (timeout : Z) (r : response)
    (s : server) :
  400 <= status_code r < 600 ->
  value_of (conclude model_name timeout (Ok r) s)
  = value_of (inference_handler model_name timeout
                (HTTPError (Some (status_code r)) []) s).
Proof.
  intros Hst. unfold conclude, try_except, bind, lift, raise_for_status, value_of.
  assert (E : (400 <=? status_code r) && (status_code r <? 600) = true).
  { apply andb_true_intro. split; [apply Z.leb_le | apply Z.ltb_lt]; lia. }
  rewrite E. unfold raise. cbn beta iota.
  destruct (inference_handler model_name timeout
              (HTTPError (Some (status_code r)) []) s) as [[r0 s1] t].
  reflexivity.
Qed.

Ltac failure_leaf m t s v :=
  match goal with
  | |- context [inference_handler m t ?e s] =>
      let Hh := fresh "Hh" in
      let H := fresh "H" in
      pose proof (handler_failure m t e s) as Hh;
      unfold value_of in Hh;
      destruct (inference_handler m t e s) as [[? ?] ?];
      cbn [fst] in *; intros H; left; exact (Hh v H)
  end.

(** What a kept response turns into, case by case. *)
Lemma conclude_kinds (model_name : str) (timeout : Z) (o : result response)
    (s : server) (v : pyval) :
  value_of (conclude model_name timeout o s) = Ok v ->
  is_failure v = true
  \/ exists r d,
       o = Ok r
       /\ ~ (400 <= status_code r < 600)
       /\ json_body r = Ok (PDict d)
       /\ payload_of d v.
Proof.
  destruct o as [r | e].
  2: { rewrite conclude_exception. intros H. left.
       exact (handler_failure _ _ _ _ _ H). }
  destruct (Z.leb_spec 400 (status_code r)) as [H4 | H4];
    destruct (Z.ltb_spec (status_code r) 600) as [H6 | H6].
  { rewrite conclude_status_error by lia. intros H. left.
    exact (handler_failure _ _ _ _ _ H). }
  all: assert (Hst : ~ (400 <= status_code r < 600)) by lia.
  all: assert (E : (400 <=? status_code r) && (status_code r <? 600) = false)
         by (destruct (Z.leb_spec 400 (status_code r));
             destruct (Z.ltb_spec (status_code r) 600); try reflexivity; lia).
  all: clear H4 H6.
  all: unfold conclude, try_except, bind, lift, raise_for_status, value_of;
       rewrite E; unfold ret; cbn beta iota.
  all: destruct (json_body r) as [body | e] eqn:Hj; cbn beta iota;
       [| failure_leaf model_name timeout s v].
  all: destruct body as [| b | n | f | str0 | l | d]; cbn beta iota delta [py_in];
       try failure_leaf model_name timeout s v.
  all: try (destruct (contains str0 (lit "message")); cbn beta iota delta [py_getitem py_get];
            failure_leaf model_name timeout s v).
  all: try (destruct (existsb _ l); cbn beta iota delta [py_getitem py_get];
            failure_leaf model_name timeout s v).
  all: unfold py_getitem, py_get.
  all: destruct (dict_lookup d (lit "message")) as [msg |] eqn:Hm; cbn beta iota.
  all: try (destruct msg as [| b | n | f | str0 | l | m]; cbn beta iota;
            try failure_leaf model_name timeout s v).
  all: cbn [fst]; intros [= <-]; right; exists r, d; repeat split; try assumption.
  all: unfold payload_of; rewrite Hm; try reflexivity.
  all: eexists; split; reflexivity.
Qed.

(** The value of a call comes from the answer that is kept: the answer
    to the chat request, or the answer to the generate request when the
    chat request was answered with status 404. *)
Lemma inference_outcome (prompt model_name : str) (sink : option placeholder)
    (timeout : Z) (s : server) :
  exists o s',
    value_of (inference prompt model_name sink timeout s)
    = value_of (conclude model_name timeout o s')
    /\ ((requests_post (chat_request prompt model_name timeout) s = (o, s')
         /\ forall r, o = Ok r -> status_code r <> 404)
        \/ exists r1 s1,
             requests_post (chat_request prompt model_name timeout) s
             = (Ok r1, s1)
             /\ status_code r1 = 404
             /\ requests_post (generate_request prompt model_name timeout) s1
                = (o, s')).
Proof.
  rewrite inference_run, attempt_run.
  destruct (requests_post (chat_request prompt model_name timeout) s)
    as [[r1 | e] s1] eqn:H1.
  - destruct (Z.eqb_spec (status_code r1) 404) as [E | E].
    + destruct (requests_post (generate_request prompt model_name timeout) s1)
        as [o2 s2] eqn:H2.
      exists o2, s2. split; [reflexivity |]. right. now exists r1, s1.
    + exists (Ok r1), s1. split; [reflexivity |]. left.
      split; [reflexivity |]. now intros r [= <-].
  - exists (Exc e), s1. split; [reflexivity |]. left.
    split; [reflexivity |]. discriminate.
Qed.

(** X6.  A value returned by [inference] is a failure message, marked with
    the cross, or it is taken from the answer of the server that was kept
    (the answer to the chat request, or to the generate request after a
    404), and then that answer has a success status and a JSON object for
    body, and the value is the content of the object's message, or its
    response when it has no message, or the empty string when the key is
    missing.  No error of the exchange comes back unmarked. *)
Theorem inference_value_kinds (prompt model_name : str)
    (sink : option placeholder) (timeout : Z) (s : server) (v : pyval) :
  value_of (inference prompt model_name sink timeout s) = Ok v ->
  is_failure v = true
  \/ exists r d,
       ((exists s1,
            requests_post (chat_request prompt model_name timeout) s
            = (Ok r, s1)
            /\ status_code r <> 404)
        \/ exists r1 s1 s2,
             requests_post (chat_request prompt model_name timeout) s
             = (Ok r1, s1)
             /\ status_code r1 = 404
             /\ requests_post (generate_request prompt model_name timeout) s1
                = (Ok r, s2))
       /\ ~ (400 <= status_code r < 600)
       /\ json_body r = Ok (PDict d)
       /\ match dict_lookup d (lit "message") with
          | Some msg =>
              exists m,
                msg = PDict m
                /\ v = match dict_lookup m (lit "content") with
                       | Some c => c
                       | None => PStr []
                       end
          | None =>
              v = match dict_lookup d (lit "response") with
                  | Some c => c
                  | None => PStr []
                  end
          end.
Proof.
  destruct (inference_outcome prompt model_name sink timeout s)
    as (o & s' & -> & Hkept).
  intros H.
  destruct (conclude_kinds _ _ _ _ _ H) as [Hf | (r & d & -> & Hst & Hj & Hp)].
  - now left.
  - right. exists r, d. split; [| repeat split; assumption].
    destruct Hkept as [[H1 Hnot] | (r1 & s1 & H1 & E1 & H2)].
    + left. exists s'. split; [exact H1 | exact (Hnot r eq_refl)].
    + right. now exists r1, s1, s'.
Qed.

(** X7.  Unless the chat request is answered with status 404, [inference]
    sends no second request: an exception of the request or any other
    status, an error status included, ends the exchange after one POST. *)
Theorem inference_single_post (prompt model_name : str)
    (sink : option placeholder) (timeout : Z) (s s1 : server)
    (o1 : result response) :
  requests_post (chat_request prompt model_name timeout) s = (o1, s1) ->
  (forall r1, o1 = Ok r1 -> status_code r1 <> 404) ->
  let run := inference prompt model_name sink timeout s in
  posts (trace_of run) = [Post (chat_request prompt model_name timeout)]
  /\ server_of run = s1
  /\ value_of run = value_of (conclude model_name timeout o1 s1).
Proof.
  intros H1 Hnot run.
  assert (Hrun : run = (value_of (conclude model_name timeout o1 s1), s1,
                        Call prompt model_name timeout
                        :: sink_steps sink
                           ++ [Post (chat_request prompt model_name timeout)])).
  { unfold run. rewrite inference_run, attempt_run, H1.
    destruct o1 as [r1 | e]; [| reflexivity].
    destruct (Z.eqb_spec (status_code r1) 404) as [E | _]; [| reflexivity].
    exfalso. exact (Hnot r1 eq_refl E). }
  rewrite Hrun. unfold trace_of, server_of, value_of. cbn [fst snd].
  repeat split.
  change (posts ([Call prompt model_name timeout] ++ sink_steps sink
                 ++ [Post (chat_request prompt model_name timeout)])
          = [Post (chat_request prompt model_name timeout)]).
  rewrite !posts_app.
  destruct (sink_steps_quiet sink) as (_ & -> & _). reflexivity.
Qed.

(** X8.  When both endpoints answer with status 404, [inference] returns
    the message that the model was not found, whatever the bodies of the
    two answers hold. *)
Theorem inference_model_not_found (prompt model_name : str)
    (sink : option placeholder) (timeout : Z) (s s1 s2 : server)
    (r1 r2 : response) :
  requests_post (chat_request prompt model_name timeout) s = (Ok r1, s1) ->
  status_code r1 = 404 ->
  requests_post (generate_request prompt model_name timeout) s1 = (Ok r2, s2) ->
  status_code r2 = 404 ->
  value_of (inference prompt model_name sink timeout s)
  = Ok (PStr (CROSS ++ lit " Error: Model '" ++ model_name
              ++ lit "' not found in model repository.")).
Proof.
  intros H1 E1 H2 E2.
  rewrite inference_run, attempt_run, H1, E1, H2. cbn [Z.eqb Pos.eqb].
  unfold value_of at 1. cbn [fst].
  rewrite conclude_status_error by lia. rewrite E2. reflexivity.
Qed.

(** X9.  An error status other than 404 on the chat request is reported
    with the text of the HTTP error; the body of the answer is not read. *)
Theorem inference_http_error (prompt model_name : str)
    (sink : option placeholder) (timeout : Z) (s s1 : server) (r1 : response) :
  requests_post (chat_request prompt model_name timeout) s = (Ok r1, s1) ->
  400 <= status_code r1 < 600 ->
  status_code r1 <> 404 ->
  value_of (inference prompt model_name sink timeout s)
  = Ok (PStr (CROSS ++ lit " Error: "
              ++ str_of_exn (HTTPError (Some (status_code r1)) []))).
Proof.
  intros H1 Hst Hnot.
  rewrite inference_run, attempt_run, H1.
  destruct (Z.eqb_spec (status_code r1) 404) as [E | _]; [contradiction |].
  unfold value_of at 1. cbn [fst].
  rewrite conclude_status_error by assumption.
  unfold inference_handler, value_of, ret.
  destruct (Z.eqb_spec (status_code r1) 404) as [E | _]; [contradiction |].
  reflexivity.
Qed.

(** X10.  A success answer whose JSON object has neither a message nor a
    response, or whose message has no content, makes [inference] return the
    empty string, which is not a failure message. *)
Theorem inference_missing_keys (prompt model_name : str)
    (sink : option placeholder) (timeout : Z) (s s1 : server) (r : response)
    (d : list (str * pyval)) :
  requests_post (chat_request prompt model_name timeout) s = (Ok r, s1) ->
  ~ (400 <= status_code r < 600) ->
  json_body r = Ok (PDict d) ->
  (dict_lookup d (lit "message") = None /\ dict_lookup d (lit "response") = None)
  \/ (exists m, dict_lookup d (lit "message") = Some (PDict m)
                /\ dict_lookup m (lit "content") = None) ->
  value_of (inference prompt model_name sink timeout s) = Ok (PStr [])
  /\ is_failure (PStr []) = false.
Proof.
  intros H1 Hst Hj Hkeys. split; [| reflexivity].
  rewrite inference_run, attempt_run, H1.
  destruct (Z.eqb_spec (status_code r) 404) as [E | _]; [lia |].
  unfold value_of at 1. cbn [fst].
  assert (E : (400 <=? status_code r) && (status_code r <? 600) = false)
    by (destruct (Z.leb_spec 400 (status_code r));
        destruct (Z.ltb_spec (status_code r) 600); try reflexivity; lia).
  unfold conclude, try_except, bind, lift, raise_for_status, value_of.
  rewrite E. unfold ret. cbn beta iota. rewrite Hj. cbn beta iota.
  unfold py_in, py_getitem, py_get.
  destruct Hkeys as [[Hm Hr] | (m & Hm & Hc)].
  - rewrite Hm. cbn beta iota. rewrite Hr. reflexivity.
  - rewrite Hm. cbn beta iota. rewrite Hc. reflexivity.
Qed.

(** X11.  With a sink, [inference] shows the six steps and sleeps 4800
    milliseconds in all before it sends the first request, whatever the
    server then answers. *)
Theorem inference_steps_first (prompt model_name : str) (p : placeholder)
    (timeout : Z) (s : server) :
  exists t,
    trace_of (inference prompt model_name (Some p) timeout s)
    = Call prompt model_name timeout :: steps_trace p ++ t
    /\ posts t = t
    /\ hd_error t = Some (Post (chat_request prompt model_name timeout))
    /\ Forall (fun e => is_step e = true) (steps_trace p)
    /\ List.length (steps_trace p) = 12%nat
    /\ sleep_total (steps_trace p) = 4800.
Proof.
  rewrite inference_run.
  destruct (attempt prompt model_name timeout s) as [[r s1] t] eqn:E.
  exists t. split; [reflexivity |].
  destruct (attempt_trace _ _ _ _ _ _ _ E) as (_ & _ & Hp).
  split; [exact Hp |]. split.
  - rewrite attempt_run in E.
    destruct (requests_post (chat_request prompt model_name timeout) s)
      as [[r1 | e] s0].
    + destruct (status_code r1 =? 404).
      * destruct (requests_post (generate_request prompt model_name timeout) s0)
          as [o2 s2].
        now injection E as _ _ <-.
      * now injection E as _ _ <-.
    + now injection E as _ _ <-.
  - split; [| split; reflexivity].
    repeat constructor.
Qed.

(** X12.  A length class other than the three keys makes
    [generate_summary] raise [KeyError] at once: no client call is made, no
    request is sent and the server is left as it was. *)
Theorem generate_summary_unknown_length (text summary_length model_name : str)
    (sink : option placeholder) (s : server) :
  ~ In summary_length [lit "short"; lit "medium"; lit "long"] ->
  generate_summary text summary_length model_name sink s
  = (Exc (KeyError summary_length), s, []).
Proof.
  intros Hout. apply generate_summary_key_error.
  unfold length_instructions. cbn [instruction_lookup].
  destruct (str_eqb (lit "short") summary_length) eqn:E1.
  { exfalso. apply Hout. left. now apply str_eqb_eq. }
  destruct (str_eqb (lit "medium") summary_length) eqn:E2.
  { exfalso. apply Hout. right. left. now apply str_eqb_eq. }
  destruct (str_eqb (lit "long") summary_length) eqn:E3.
  { exfalso. apply Hout. right. right. left. now apply str_eqb_eq. }
  reflexivity.
Qed.

End ClientMore.

(* ===================================================================== *)
(** ** Further properties of the orchestrator *)
(* ===================================================================== *)

Lemma startswith_cross (s : str) :
  startswith s CROSS
  = match s with c :: _ => N.eqb c 10060 | [] => false end.
Proof.
  destruct s as [| c s]; [reflexivity |].
  simpl. destruct s; apply andb_true_r.
Qed.

Lemma firstn_unmarked (k : nat) (s : str) :
  startswith s CROSS = false -> startswith (firstn k s) CROSS = false.
Proof.
  rewrite !startswith_cross.
  destruct k, s; simpl; auto.
Qed.

Lemma join_unmarked (o : str) (rest : list str) :
  startswith o CROSS = false ->
  startswith (join (LF ++ LF) (o :: rest)) CROSS = false.
Proof.
  rewrite !startswith_cross. cbn [join].
  destruct rest as [| o' rest]; [auto |].
  destruct o as [| c o]; [reflexivity | auto].
Qed.

Lemma combined_unmarked (outs : list str) :
  Forall (fun o => startswith o CROSS = false) outs ->
  startswith (combined outs) CROSS = false.
Proof.
  intros H. unfold combined, slice_to. apply firstn_unmarked.
  destruct H as [| o rest Ho _]; [reflexivity |].
  now apply join_unmarked.
Qed.

Lemma posts_only (t : list event) :
  posts t = t -> Forall (fun e => is_post e = true) t.
Proof.
  induction t as [| e t IH]; [constructor |].
  unfold posts. cbn [filter]. destruct (is_post e) eqn:E.
  - intros [= H]. constructor; [assumption | now apply IH].
  - intros H. exfalso.
    pose proof (filter_length_le is_post t) as Hl.
    rewrite H in Hl. cbn [List.length] in Hl. lia.
Qed.

Section FaqMore.

Context {R : Runtime}.

(** The trace of a client call without a sink: the mark, then requests. *)
Lemma inference_none_trace (prompt model_name : str) (timeout : Z)
    (s : server) :
  forall r s1 t,
    inference prompt model_name None timeout s = (r, s1, t) ->
    exists t0,
      t = Call prompt model_name timeout :: t0
      /\ Forall (fun e => is_post e = true) t0.
Proof.
  intros r s1 t. rewrite inference_run.
  destruct (attempt prompt model_name timeout s) as [[r0 s0] t0] eqn:E.
  intros [= _ _ <-]. exists t0. split; [reflexivity |].
  destruct (attempt_trace _ _ _ _ _ _ _ E) as (_ & _ & Hp).
  now apply posts_only.
Qed.

Lemma all_succeed_unmarked (q : Z) (model_name : str) :
  forall chunks s outs s1,
    all_succeed q model_name chunks s outs s1 ->
    Forall (fun o => startswith o CROSS = false) outs.
Proof.
  induction 1; constructor; assumption.
Qed.

(** Bounds on the questions of the long path, for [c] chunks. *)
Lemma questions_bounds (num_questions c : Z) :
  1 <= c ->
  let q := Z.max 2 (num_questions / c) in
  2 <= q
  /\ num_questions - c < c * q
  /\ (2 * c <= num_questions -> c * q <= num_questions)
  /\ (num_questions < 2 * c -> c * q = 2 * c).
Proof.
  intros Hc q. unfold q.
  pose proof (Z.div_mod num_questions c ltac:(lia)) as Hd.
  pose proof (Z.mod_pos_bound num_questions c ltac:(lia)) as Hm.
  revert Hd Hm.
  generalize (num_questions / c). generalize (num_questions mod c).
  intros m d Hd Hm. repeat split; try lia; try nia.
Qed.

(** X13.  In the long path, when every chunk call succeeds,
    [generate_faq_smart] makes one client call per chunk, each with the
    prompt that asks for [q = max(2, num_questions // len(chunks))]
    questions.  With [c] the number of calls made, [q] is at least 2 and
    the calls together ask for [c * q] questions: more than
    [num_questions - c], no more than [num_questions] when
    [num_questions >= 2 * c], and [2 * c] otherwise. *)
Theorem faq_questions_total (text : str) (num_questions : Z)
    (model_name : str) (sink : option placeholder) (s s1 : server)
    (outs : list str) :
  3000 < len text ->
  all_succeed (Z.max 2 (num_questions / len (chunk_text text 2500))) model_name
    (chunk_text text 2500) s outs s1 ->
  let run := generate_faq_smart text num_questions model_name sink s in
  let q := Z.max 2 (num_questions / len (chunk_text text 2500)) in
  let c := len (calls (trace_of run)) in
  calls (trace_of run)
  = map (fun chunk => Call (chunk_prompt q chunk) model_name 1000)
      (chunk_text text 2500)
  /\ (forall chunk,
        contains (chunk_prompt q chunk)
          (lit "generate " ++ str_of_int q
           ++ lit " frequently asked questions (FAQ)") = true)
  /\ c = len (chunk_text text 2500)
  /\ 2 <= q
  /\ num_questions - c < c * q
  /\ (2 * c <= num_questions -> c * q <= num_questions)
  /\ (num_questions < 2 * c -> c * q = 2 * c).
Proof.
  intros Hlong Hall run q c.
  assert (Hcalls : calls (trace_of run)
                   = map (fun chunk => Call (chunk_prompt q chunk) model_name 1000)
                       (chunk_text text 2500)).
  { unfold run. rewrite generate_faq_smart_long by assumption. cbv zeta.
    destruct (faq_loop_complete q model_name sink (len (chunk_text text 2500))
                (chunk_text text 2500) s outs s1 Hall 0 []) as (t & E & Hc).
    unfold questions_per_chunk. fold q. rewrite E.
    unfold trace_of. cbn [snd]. rewrite calls_app.
    destruct (sink_empty_quiet sink) as (-> & _ & _).
    rewrite app_nil_r. exact Hc. }
  assert (Hcount : c = len (chunk_text text 2500)).
  { unfold c. rewrite Hcalls. unfold len. now rewrite length_map. }
  split; [exact Hcalls |]. split; [intros chunk; apply chunk_prompt_asks |].
  split; [exact Hcount |].
  assert (Hc : 1 <= len (chunk_text text 2500)).
  { unfold len. pose proof (chunk_text_not_nil text 2500) as H.
    destruct (chunk_text text 2500); [contradiction |].
    cbn [List.length]. lia. }
  rewrite Hcount.
  exact (questions_bounds num_questions (len (chunk_text text 2500)) Hc).
Qed.

(** X14.  In the long path, when every chunk call succeeds the string that
    [generate_faq_smart] returns does not start with the cross mark: the
    caller's [startswith] test cannot take the combined output for a
    failure. *)
Theorem faq_success_unmarked (text : str) (num_questions : Z)
    (model_name : str) (sink : option placeholder) (s s1 : server)
    (outs : list str) :
  3000 < len text ->
  all_succeed (questions_per_chunk text num_questions) model_name
    (chunk_text text 2500) s outs s1 ->
  value_of (generate_faq_smart text num_questions model_name sink s)
  = Ok (PStr (combined outs))
  /\ startswith (combined outs) CROSS = false.
Proof.
  intros Hlong Hall. split.
  - rewrite generate_faq_smart_long by assumption. cbv zeta.
    destruct (faq_loop_complete _ model_name sink (len (chunk_text text 2500))
                _ s outs s1 Hall 0 []) as (t & -> & _).
    reflexivity.
  - apply combined_unmarked. exact (all_succeed_unmarked _ _ _ _ _ _ Hall).
Qed.

Lemma faq_loop_no_steps (q : Z) (model_name : str) (sink : option placeholder)
    (total : Z) :
  forall chunks i all_faqs s r s1 t,
    faq_loop q model_name sink total i chunks all_faqs s = (r, s1, t) ->
    Forall (fun e => is_step e = false) t.
Proof.
  assert (Hinfo : forall i, Forall (fun e => is_step e = false)
                              (sink_info sink i total))
    by (intros i; destruct sink; repeat constructor).
  assert (Hempty : Forall (fun e => is_step e = false) (sink_empty sink))
    by (destruct sink; repeat constructor).
  assert (Hcall : forall prompt s r s1 t,
            inference prompt model_name None 1000 s = (r, s1, t) ->
            Forall (fun e => is_step e = false) t).
  { intros prompt s r s1 t E.
    destruct (inference_none_trace _ _ _ _ _ _ _ E) as (t0 & -> & Hp).
    constructor; [reflexivity |].
    eapply Forall_impl; [| exact Hp]. intros [] He; try discriminate; reflexivity. }
  induction chunks as [| chunk rest IH]; intros i all_faqs s r s1 t.
  - intros [= _ _ <-]. constructor.
  - rewrite faq_loop_cons.
    destruct (inference (chunk_prompt q chunk) model_name None 1000 s)
      as [[r0 s0] t0] eqn:E.
    specialize (Hcall _ _ _ _ _ E).
    destruct r0 as [v | e].
    2: { intros [= _ _ <-]. apply Forall_app. auto. }
    destruct v;
      try (intros [= _ _ <-]; apply Forall_app; auto).
    destruct (startswith s2 CROSS).
    + intros [= _ _ <-]. rewrite !Forall_app. auto.
    + destruct (faq_loop q model_name sink total (i + 1) rest
                  (all_faqs ++ [s2]) s0) as [[r2 s3] t2] eqn:E2.
      intros [= _ _ <-]. rewrite !Forall_app.
      repeat split; auto. exact (IH _ _ _ _ _ _ E2).
Qed.

(** X15.  In the long path the six processing steps are never shown and the
    function never sleeps: with a sink or without one the trace holds no
    [Markdown] and no [Sleep] event. *)
Theorem faq_long_no_steps (text : str) (num_questions : Z) (model_name : str)
    (sink : option placeholder) (s : server) :
  3000 < len text ->
  Forall (fun e => is_step e = false)
    (trace_of (generate_faq_smart text num_questions model_name sink s))
  /\ sleep_total
       (trace_of (generate_faq_smart text num_questions model_name sink s)) = 0.
Proof.
  intros Hlong.
  assert (H : Forall (fun e => is_step e = false)
                (trace_of (generate_faq_smart text num_questions model_name sink s))).
  { rewrite generate_faq_smart_long by assumption. cbv zeta.
    destruct (faq_loop (questions_per_chunk text num_questions) model_name sink
                (len (chunk_text text 2500)) 0 (chunk_text text 2500) [] s)
      as [[r s1] t] eqn:E.
    pose proof (faq_loop_no_steps _ _ _ _ _ _ _ _ _ _ _ E) as Ht.
    destruct r as [[l | faq] | e]; unfold trace_of; cbn [snd]; try assumption.
    apply Forall_app. split; [assumption |].
    destruct sink; repeat constructor. }
  split; [exact H |].
  induction H as [| e t He _ IH]; [reflexivity |].
  destruct e; try discriminate; exact IH.
Qed.

Lemma faq_loop_return_cleared (q : Z) (model_name : str) (p : placeholder)
    (total : Z) :
  forall chunks i all_faqs s v s1 t,
    faq_loop q model_name (Some p) total i chunks all_faqs s
    = (Ok (inr v), s1, t) ->
    exists t', t = t' ++ [Empty p].
Proof.
  induction chunks as [| chunk rest IH]; intros i all_faqs s v s1 t.
  - discriminate.
  - rewrite faq_loop_cons.
    destruct (inference (chunk_prompt q chunk) model_name None 1000 s)
      as [[r0 s0] t0].
    destruct r0 as [x | e]; [| discriminate].
    destruct x; try discriminate.
    destruct (startswith s2 CROSS).
    + intros [= _ _ <-].
      exists (sink_info (Some p) i total ++ t0).
      now rewrite <- app_assoc.
    + destruct (faq_loop q model_name (Some p) total (i + 1) rest
                  (all_faqs ++ [s2]) s0) as [[r2 s3] t2] eqn:E2.
      intros [= -> _ <-].
      destruct (IH _ _ _ _ _ _ E2) as (t' & ->).
      exists (sink_info (Some p) i total ++ t0 ++ t').
      now rewrite <- !app_assoc.
Qed.

(** X16.  In the long path with a sink, whenever [generate_faq_smart]
    returns a value, a result or a failure message, the last thing it does
    is to clear the placeholder. *)
Theorem faq_long_clears_sink (text : str) (num_questions : Z)
    (model_name : str) (p : placeholder) (s : server) (v : pyval) :
  3000 < len text ->
  value_of (generate_faq_smart text num_questions model_name (Some p) s) = Ok v ->
  exists t',
    trace_of (generate_faq_smart text num_questions model_name (Some p) s)
    = t' ++ [Empty p].
Proof.
  intros Hlong. rewrite generate_faq_smart_long by assumption. cbv zeta.
  destruct (faq_loop (questions_per_chunk text num_questions) model_name (Some p)
              (len (chunk_text text 2500)) 0 (chunk_text text 2500) [] s)
    as [[r s1] t] eqn:E.
  destruct r as [[l | faq] | e]; unfold value_of, trace_of; cbn [fst snd].
  - intros _. now exists t.
  - intros _. exact (faq_loop_return_cleared _ _ _ _ _ _ _ _ _ _ _ E).
  - discriminate.
Qed.

Lemma faq_loop_infos (q : Z) (model_name : str) (p : placeholder) (total : Z) :
  forall chunks i all_faqs s r s1 t,
    faq_loop q model_name (Some p) total (Z.of_nat i) chunks all_faqs s
    = (r, s1, t) ->
    filter is_info t = section_infos p total i (List.length (calls t)).
Proof.
  assert (Hcall : forall prompt s r s1 t,
            inference prompt model_name None 1000 s = (r, s1, t) ->
            filter is_info t = [] /\ List.length (calls t) = 1%nat).
  { intros prompt s r s1 t E.
    rewrite (inference_calls _ _ _ _ _ _ _ _ E). split; [| reflexivity].
    destruct (inference_none_trace _ _ _ _ _ _ _ E) as (t0 & -> & Hp).
    cbn [filter is_info]. clear E.
    induction Hp as [| e t0 He _ IH]; [reflexivity |].
    destruct e; try discriminate; exact IH. }
  induction chunks as [| chunk rest IH]; intros i all_faqs s r s1 t.
  - intros [= _ _ <-]. reflexivity.
  - rewrite faq_loop_cons.
    destruct (inference (chunk_prompt q chunk) model_name None 1000 s)
      as [[r0 s0] t0] eqn:E.
    destruct (Hcall _ _ _ _ _ E) as (Hi & Hc).
    assert (Hstop : forall x,
              filter is_info x = [] -> calls x = [] ->
              filter is_info (sink_info (Some p) (Z.of_nat i) total ++ t0 ++ x)
              = section_infos p total i
                  (List.length
                     (calls (sink_info (Some p) (Z.of_nat i) total ++ t0 ++ x)))).
    { intros x Hx Hcx. rewrite !calls_app, Hcx, app_nil_r.
      rewrite !filter_app, Hi, Hx.
      change (calls (sink_info (Some p) (Z.of_nat i) total)) with (@nil event).
      cbn [app]. rewrite Hc. reflexivity. }
    destruct r0 as [v | e].
    2: { intros [= _ _ <-]. rewrite <- (app_nil_r t0). now apply Hstop. }
    destruct v;
      try (intros [= _ _ <-]; rewrite <- (app_nil_r t0); now apply Hstop).
    destruct (startswith s2 CROSS).
    + intros [= _ _ <-]. now apply Hstop.
    + replace (Z.of_nat i + 1) with (Z.of_nat (S i)) by lia.
      destruct (faq_loop q model_name (Some p) total (Z.of_nat (S i)) rest
                  (all_faqs ++ [s2]) s0) as [[r2 s3] t2] eqn:E2.
      intros [= _ _ <-].
      specialize (IH _ _ _ _ _ _ E2).
      change (calls (Info p (section_message (Z.of_nat i) total) :: t0 ++ t2))
        with (calls (t0 ++ t2)).
      change (filter is_info
                (Info p (section_message (Z.of_nat i) total) :: t0 ++ t2))
        with (Info p (section_message (Z.of_nat i) total)
              :: filter is_info (t0 ++ t2)).
      rewrite calls_app, filter_app, Hi, IH, length_app, Hc.
      reflexivity.
Qed.

(** X17.  In the long path with a sink there is one progress message per
    client call.  The message for the call number [i] (from 0) reads
    ["Processing section <i+1>/<number of chunks>... This may take a while
    for long texts."] after the memo sign: the sections are counted from 1
    upwards out of the number of chunks. *)
Theorem faq_long_section_messages (text : str) (num_questions : Z)
    (model_name : str) (p : placeholder) (s : server) :
  3000 < len text ->
  let run := generate_faq_smart text num_questions model_name (Some p) s in
  filter is_info (trace_of run)
  = map (fun i =>
           Info p ([128221%N] ++ lit " Processing section "
                   ++ str_of_int (Z.of_nat i + 1) ++ lit "/"
                   ++ str_of_int (len (chunk_text text 2500))
                   ++ lit "... This may take a while for long texts."))
      (seq 0 (List.length (calls (trace_of run)))).
Proof.
  intros Hlong run. unfold run.
  rewrite generate_faq_smart_long by assumption. cbv zeta.
  destruct (faq_loop (questions_per_chunk text num_questions) model_name (Some p)
              (len (chunk_text text 2500)) 0 (chunk_text text 2500) [] s)
    as [[r s1] t] eqn:E.
  pose proof (faq_loop_infos _ _ _ _ _ 0%nat _ _ _ _ _ E) as H.
  unfold section_infos in H.
  assert (Hmsg : forall i total,
            section_message i total
            = [128221%N] ++ lit " Processing section "
              ++ str_of_int (i + 1) ++ lit "/" ++ str_of_int total
              ++ lit "... This may take a while for long texts.")
    by reflexivity.
  rewrite (map_ext _ _ (fun i => f_equal (Info p)
                                   (Hmsg (Z.of_nat i)
                                      (len (chunk_text text 2500))))) in H.
  destruct r as [[l | faq] | e]; unfold trace_of; cbn [snd]; try exact H.
  rewrite filter_app, calls_app. cbn [sink_empty filter is_info calls is_call].
  rewrite !app_nil_r. exact H.
Qed.

End FaqMore.

(* ===================================================================== *)
(** ** Properties of the streaming client *)
(* ===================================================================== *)

Lemma last_cons {A : Type} (x d : A) (l : list A) :
  last (x :: l) d = last l x.
Proof.
  revert x d. induction l as [| y l IH]; intros x d; [reflexivity |].
  change (last (x :: y :: l) d) with (last (y :: l) d).
  now rewrite (IH y d), (IH y x).
Qed.

Lemma line_text_plain (l : line) :
  match l with Line (Decoded _) => True | _ => line_text l = [] end.
Proof. destruct l as [| [c | | e]]; simpl; auto. Qed.

Lemma running_texts_last (lines : list line) :
  forall acc,
    last (running_texts acc lines) acc = acc ++ concat (map line_text lines).
Proof.
  induction lines as [| l lines IH]; intros acc.
  - simpl. now rewrite app_nil_r.
  - destruct l as [| [c | | e]]; cbn [running_texts map concat].
    + change (line_text EmptyLine) with (@nil char). exact (IH acc).
    + rewrite last_cons, IH. now rewrite app_assoc.
    + change (line_text (Line Malformed)) with (@nil char). exact (IH acc).
    + change (line_text (Line (Unreadable e))) with (@nil char). exact (IH acc).
Qed.

Section StreamFacts.

Context {R : Runtime} {T : Transport R}.

Lemma streaming_handler_run (model_name : str) (e : exn) (s : server) :
  exists r, streaming_handler model_name e s = (r, s, []).
Proof.
  unfold streaming_handler, ret, raise.
  destruct e as [d | d | [code |] d | d | v | v a | k |]; try (eexists; reflexivity).
  destruct (code =? 404); eexists; reflexivity.
Qed.

Lemma streaming_handler_failure (model_name : str) (e : exn) (s : server) :
  forall v,
    value_of (streaming_handler model_name e s) = Ok v -> is_failure v = true.
Proof.
  intros v. unfold streaming_handler, value_of, ret, raise.
  destruct e as [d | d | [code |] d | d | x | x a | k |]; cbn [fst];
    try (intros [= <-]; apply error_is_failure).
  destruct (code =? 404); cbn [fst]; intros [= <-]; apply error_is_failure.
Qed.

(** One well-formed fragment: its text is added and shown. *)
Lemma collect_fragment (sink : option placeholder) (chunk : pyval)
    (rest : list line) (acc text : str) (s : server) :
  fragment_text (Line (Decoded chunk)) = Some text ->
  collect sink (Line (Decoded chunk) :: rest) acc s
  = let '(r, s1, t) := collect sink rest (acc ++ text) s in
    (r, s1, sink_markdown sink [acc ++ text] ++ t).
Proof.
  intros Hf. cbn [collect].
  assert (Hpiece :
    bind (lift (py_in (lit "message") chunk))
      (fun has_message : bool =>
         bind (if has_message
               then bind (lift (py_getitem chunk (lit "message")))
                      (fun msg => lift (py_get msg (lit "content") (PStr [])))
               else lift (py_get chunk (lit "response") (PStr [])))
           (fun piece =>
              match piece with
              | PStr text0 =>
                  bind (when_sink sink
                          (fun p => emit (Markdown p (acc ++ text0))))
                    (fun _ => collect sink rest (acc ++ text0))
              | _ => raise (TypeError piece)
              end)) s
    = bind (when_sink sink (fun p => emit (Markdown p (acc ++ text))))
        (fun _ => collect sink rest (acc ++ text)) s).
  { unfold fragment_text in Hf.
    destruct chunk as [| b | n | f | str0 | l | d]; try discriminate.
    unfold bind at 1, lift at 1, py_in.
    destruct (dict_lookup d (lit "message")) as [msg |] eqn:Hm.
    - destruct msg as [| b | n | f | str0 | l | m]; try discriminate.
      unfold bind at 1. unfold bind at 1, lift at 1, py_getitem. rewrite Hm.
      unfold lift, py_get.
      destruct (dict_lookup m (lit "content")) as [c |]; [destruct c |];
        try discriminate; injection Hf as <-;
        destruct (bind _ _ s) as [[r s1] t]; reflexivity.
    - unfold bind at 1, lift at 1, py_get.
      destruct (dict_lookup d (lit "response")) as [c |]; [destruct c |];
        try discriminate; injection Hf as <-;
        destruct (bind _ _ s) as [[r s1] t]; reflexivity. }
  rewrite Hpiece. unfold bind.
  assert (Hs : when_sink sink (fun p => emit (Markdown p (acc ++ text))) s
               = (Ok tt, s, sink_markdown sink [acc ++ text]))
    by (destruct sink; reflexivity).
  rewrite Hs. reflexivity.
Qed.

(** One fragment that is not well formed: the loop ends with an
    exception of the program's own, the same with and without a sink. *)
Lemma collect_bad_fragment (chunk : pyval) :
  fragment_text (Line (Decoded chunk)) = None ->
  exists e,
    (forall sink rest acc s,
        collect sink (Line (Decoded chunk) :: rest) acc s = (Exc e, s, []))
    /\ match e with TypeError _ | AttributeError _ _ => True | _ => False end.
Proof.
  intros Hf. unfold fragment_text in Hf.
  destruct chunk as [| b | n | f | str0 | l | d];
    try (eexists; split; [intros; reflexivity | exact I]).
  - destruct (contains str0 (lit "message")) eqn:E;
      (eexists; split;
       [ intros sink rest acc s; cbn [collect];
         unfold bind at 1, lift at 1, py_in; rewrite E; reflexivity
       | exact I ]).
  - destruct (existsb (fun v => match v with
                                | PStr s => str_eqb s (lit "message")
                                | _ => false
                                end) l) eqn:E;
      (eexists; split;
       [ intros sink rest acc s; cbn [collect];
         unfold bind at 1, lift at 1, py_in; rewrite E; reflexivity
       | exact I ]).
  - destruct (dict_lookup d (lit "message")) as [msg |] eqn:Hm.
    + destruct msg as [| b | n | f | str0 | l | m];
        try (eexists; split;
             [ intros sink rest acc s; cbn [collect];
               unfold bind at 1, lift at 1, py_in; rewrite Hm;
               cbn beta iota; unfold bind at 1;
               unfold bind at 1, lift at 1, py_getitem;
               rewrite Hm; reflexivity
             | exact I ]).
      destruct (dict_lookup m (lit "content")) as [c |] eqn:Hc; [| discriminate].
      destruct c; try discriminate;
        (eexists; split;
         [ intros sink rest acc s; cbn [collect];
           unfold bind at 1, lift at 1, py_in; rewrite Hm;
           cbn beta iota; unfold bind at 1;
           unfold bind at 1, lift at 1, py_getitem;
           rewrite Hm; cbn beta iota; unfold lift, py_get; rewrite Hc;
           reflexivity
         | exact I ]).
    + destruct (dict_lookup d (lit "response")) as [c |] eqn:Hc; [| discriminate].
      destruct c; try discriminate;
        (eexists; split;
         [ intros sink rest acc s; cbn [collect];
           unfold bind at 1, lift at 1, py_in; rewrite Hm;
           cbn beta iota; unfold bind at 1, lift at 1, py_get; rewrite Hc;
           reflexivity
         | exact I ]).
Qed.

(** The loop over lines it gets past: the texts of the fragments, in
    order; the server is not touched. *)
Lemma collect_passes (sink : option placeholder) (lines : list line) :
  forall acc s,
    forallb line_passes lines = true ->
    collect sink lines acc s
    = (Ok (acc ++ concat (map line_text lines)), s,
       sink_markdown sink (running_texts acc lines)).
Proof.
  induction lines as [| l lines IH]; intros acc s Hp.
  - cbn. rewrite app_nil_r. destruct sink; reflexivity.
  - cbn [forallb] in Hp. apply andb_prop in Hp. destruct Hp as [Hl Hp].
    destruct l as [| [chunk | | e]]; try discriminate.
    + cbn [collect running_texts map concat]. now rewrite IH.
    + unfold line_passes in Hl.
      destruct (fragment_text (Line (Decoded chunk))) as [text |] eqn:Hf;
        [| discriminate].
      rewrite (collect_fragment _ _ _ _ _ _ Hf), IH by assumption.
      cbn [running_texts map concat]. unfold line_text. rewrite Hf.
      rewrite app_assoc. destruct sink; reflexivity.
    + cbn [collect running_texts map concat]. now rewrite IH.
Qed.

(** The loop with a placeholder and without one. *)
Lemma collect_sink (p : placeholder) (lines : list line) :
  forall acc s,
    exists r t,
      collect None lines acc s = (r, s, [])
      /\ collect (Some p) lines acc s = (r, s, t)
      /\ silent t = [].
Proof.
  induction lines as [| l lines IH]; intros acc s.
  - exists (Ok acc), []. repeat split.
  - destruct l as [| [chunk | | e]].
    + exact (IH acc s).
    + destruct (fragment_text (Line (Decoded chunk))) as [text |] eqn:Hf.
      * rewrite !(collect_fragment _ _ _ _ _ _ Hf).
        destruct (IH (acc ++ text) s) as (r & t & -> & -> & Hs).
        exists r, (Markdown p (acc ++ text) :: t). repeat split. exact Hs.
      * destruct (collect_bad_fragment chunk Hf) as (e1 & H1 & _).
        exists (Exc e1), []. rewrite !H1. repeat split.
    + exact (IH acc s).
    + exists (Exc e), []. repeat split.
Qed.

(** A streamed call, step by step. *)
Lemma streaming_run (prompt model_name : str) (sink : option placeholder)
    (s : server) :
  inference_streaming prompt model_name sink s =
  let '(o1, s1) :=
    requests_post_stream (stream_chat_request prompt model_name) s in
  match o1 with
  | Ok r1 =>
      if stream_status r1 =? 404 then
        let '(o2, s2) :=
          requests_post_stream (stream_generate_request prompt model_name) s1 in
        let '(r, s3, t) := stream_conclude model_name sink o2 s2 in
        (r, s3,
         [Post (stream_chat_request prompt model_name);
          Post (stream_generate_request prompt model_name)] ++ t)
      else
        let '(r, s3, t) := stream_conclude model_name sink o1 s1 in
        (r, s3, [Post (stream_chat_request prompt model_name)] ++ t)
  | Exc e =>
      let '(r, s3, t) := stream_conclude model_name sink o1 s1 in
      (r, s3, [Post (stream_chat_request prompt model_name)] ++ t)
  end.
Proof.
  unfold inference_streaming, stream_conclude, try_except.
  unfold bind at 1. unfold post_stream at 1.
  destruct (requests_post_stream (stream_chat_request prompt model_name) s)
    as [[r1 | e] s1]; cbn beta iota.
  2: { unfold bind at 1, lift at 1. cbn beta iota.
       destruct (streaming_handler model_name e s1) as [[r s3] t].
       reflexivity. }
  unfold bind at 1.
  destruct (stream_status r1 =? 404).
  - unfold post_stream at 1.
    destruct (requests_post_stream (stream_generate_request prompt model_name) s1)
      as [[r2 | e] s2]; cbn beta iota.
    + unfold bind at 3, lift at 1. cbn beta iota.
      destruct (bind _ _ s2) as [[[v | e] s3] t]; cbn beta iota.
      * reflexivity.
      * destruct (streaming_handler model_name e s3) as [[r s4] t4].
        now rewrite <- !app_assoc.
    + unfold bind at 1, lift at 1. cbn beta iota.
      destruct (streaming_handler model_name e s2) as [[r s3] t].
      reflexivity.
  - unfold ret at 1. cbn beta iota.
    unfold bind at 3, lift at 1. cbn beta iota.
    destruct (bind _ _ s1) as [[[v | e] s3] t]; cbn beta iota.
    + reflexivity.
    + destruct (streaming_handler model_name e s3) as [[r s4] t4].
      now rewrite <- !app_assoc.
Qed.

End StreamFacts.

Section StreamTheorems.

Context {R : Runtime} {T : Transport R}.

Lemma collect_prefix (sink : option placeholder) (pre rest : list line) :
  forall acc s,
    forallb line_passes pre = true ->
    collect sink (pre ++ rest) acc s
    = let '(r, s1, t) :=
        collect sink rest (acc ++ concat (map line_text pre)) s in
      (r, s1, sink_markdown sink (running_texts acc pre) ++ t).
Proof.
  induction pre as [| l pre IH]; intros acc s Hp.
  - cbn [app map concat running_texts]. rewrite app_nil_r.
    destruct (collect sink rest acc s) as [[r s1] t].
    destruct sink; reflexivity.
  - cbn [forallb] in Hp. apply andb_prop in Hp. destruct Hp as [Hl Hp].
    destruct l as [| [chunk | | e]]; try discriminate.
    + cbn [app collect running_texts map concat]. now rewrite IH.
    + unfold line_passes in Hl.
      destruct (fragment_text (Line (Decoded chunk))) as [text |] eqn:Hf;
        [| discriminate].
      assert (Hlt : line_text (Line (Decoded chunk)) = text)
        by (unfold line_text; now rewrite Hf).
      cbn [app]. rewrite (collect_fragment _ _ _ _ _ _ Hf), IH by assumption.
      cbn [running_texts map concat]. rewrite Hlt, app_assoc.
      destruct (collect sink rest ((acc ++ text) ++ concat (map line_text pre)) s)
        as [[r s1] t].
      destruct sink; reflexivity.
    + cbn [app collect running_texts map concat]. now rewrite IH.
Qed.

Lemma stream_status_ok (r : stream_response) :
  ~ (400 <= stream_status r < 600) ->
  (400 <=? stream_status r) && (stream_status r <? 600) = false.
Proof.
  intros H. destruct (Z.leb_spec 400 (stream_status r));
    destruct (Z.ltb_spec (stream_status r) 600); try reflexivity; lia.
Qed.

Lemma stream_conclude_passes (model_name : str) (sink : option placeholder)
    (r : stream_response) (s : server) :
  ~ (400 <= stream_status r < 600) ->
  stream_error r = None ->
  forallb line_passes (stream_lines r) = true ->
  stream_conclude model_name sink (Ok r) s
  = (Ok (PStr (concat (map line_text (stream_lines r)))), s,
     sink_markdown sink (running_texts [] (stream_lines r))).
Proof.
  intros Hst He Hp.
  unfold stream_conclude, try_except, bind, lift.
  rewrite (stream_status_ok r Hst). unfold ret at 1. cbn beta iota.
  rewrite (collect_passes sink _ [] s Hp), He. unfold ret.
  cbn [app]. now rewrite app_nil_r.
Qed.

Lemma stream_conclude_sink (model_name : str) (p : placeholder)
    (o : result stream_response) (s : server) :
  exists r t,
    stream_conclude model_name None o s = (r, s, [])
    /\ stream_conclude model_name (Some p) o s = (r, s, t)
    /\ silent t = [].
Proof.
  unfold stream_conclude, try_except, bind, lift.
  destruct o as [resp | e]; cbn beta iota.
  2: { destruct (streaming_handler_run model_name e s) as [r ->].
       exists r, []. repeat split. }
  destruct ((400 <=? stream_status resp) && (stream_status resp <? 600)).
  { unfold raise. cbn beta iota.
    destruct (streaming_handler_run model_name
                (HTTPError (Some (stream_status resp)) []) s) as [r ->].
    exists r, []. repeat split. }
  unfold ret at 1. unfold ret at 2. cbn beta iota.
  destruct (collect_sink p (stream_lines resp) [] s) as (rc & t & -> & -> & Hs).
  destruct rc as [full | e]; cbn beta iota.
  - destruct (stream_error resp) as [e |]; unfold raise, ret; cbn beta iota.
    + destruct (streaming_handler_run model_name e s) as [r ->].
      exists r, ((t ++ []) ++ []). repeat split.
      now rewrite !app_nil_r.
    + exists (Ok (PStr full)), (t ++ []). repeat split.
      now rewrite app_nil_r.
  - destruct (streaming_handler_run model_name e s) as [r ->].
    exists r, (t ++ []). repeat split. now rewrite app_nil_r.
Qed.

(** X18.  A streamed answer of the chat endpoint with a success status is
    put together from the texts of its fragments, in order; empty lines and
    lines that are not JSON are skipped and change nothing. *)
Theorem streaming_collects (prompt model_name : str)
    (sink : option placeholder) (s s1 : server) (r : stream_response) :
  requests_post_stream (stream_chat_request prompt model_name) s = (Ok r, s1) ->
  ~ (400 <= stream_status r < 600) ->
  stream_error r = None ->
  forallb line_passes (stream_lines r) = true ->
  let run := inference_streaming prompt model_name sink s in
  value_of run = Ok (PStr (concat (map line_text (stream_lines r))))
  /\ server_of run = s1
  /\ posts (trace_of run) = [Post (stream_chat_request prompt model_name)].
Proof.
  intros H1 Hst He Hp run. unfold run.
  rewrite streaming_run, H1.
  destruct (Z.eqb_spec (stream_status r) 404) as [E | _]; [lia |].
  rewrite (stream_conclude_passes _ _ _ _ Hst He Hp).
  unfold value_of, server_of, trace_of. cbn [fst snd].
  repeat split.
  rewrite posts_app. destruct sink; cbn [sink_markdown]; [| reflexivity].
  cbn [posts filter is_post app]. f_equal.
  induction (running_texts [] (stream_lines r)); [reflexivity | assumption].
Qed.

(** X19.  With a placeholder, the streamed text is shown once after every
    fragment, each time the whole text so far; the last text shown is the
    text returned. *)
Theorem streaming_shows_progress (prompt model_name : str) (p : placeholder)
    (s s1 : server) (r : stream_response) :
  requests_post_stream (stream_chat_request prompt model_name) s = (Ok r, s1) ->
  ~ (400 <= stream_status r < 600) ->
  stream_error r = None ->
  forallb line_passes (stream_lines r) = true ->
  let run := inference_streaming prompt model_name (Some p) s in
  trace_of run
  = Post (stream_chat_request prompt model_name)
    :: map (Markdown p) (running_texts [] (stream_lines r))
  /\ value_of run = Ok (PStr (last (running_texts [] (stream_lines r)) [])).
Proof.
  intros H1 Hst He Hp run. unfold run.
  rewrite streaming_run, H1.
  destruct (Z.eqb_spec (stream_status r) 404) as [E | _]; [lia |].
  rewrite (stream_conclude_passes _ _ _ _ Hst He Hp).
  unfold value_of, trace_of. cbn [fst snd]. split; [reflexivity |].
  now rewrite running_texts_last.
Qed.

(** X20.  With a placeholder or without one, [inference_streaming] returns
    the same value and leaves the server in the same state; the placeholder
    adds displays of the text to the trace and nothing else. *)
Theorem streaming_sink_silent (prompt model_name : str) (p : placeholder)
    (s : server) :
  let shown := inference_streaming prompt model_name (Some p) s in
  let quiet := inference_streaming prompt model_name None s in
  value_of shown = value_of quiet
  /\ server_of shown = server_of quiet
  /\ silent (trace_of shown) = trace_of quiet.
Proof.
  intros shown quiet. unfold shown, quiet. rewrite !streaming_run.
  destruct (requests_post_stream (stream_chat_request prompt model_name) s)
    as [[r1 | e] s1].
  - destruct (stream_status r1 =? 404).
    + destruct (requests_post_stream (stream_generate_request prompt model_name) s1)
        as [o2 s2].
      destruct (stream_conclude_sink model_name p o2 s2) as (r & t & -> & -> & Hs).
      unfold value_of, server_of, trace_of. cbn [fst snd]. repeat split.
      rewrite silent_app, Hs. reflexivity.
    + destruct (stream_conclude_sink model_name p (Ok r1) s1)
        as (r & t & -> & -> & Hs).
      unfold value_of, server_of, trace_of. cbn [fst snd]. repeat split.
      rewrite silent_app, Hs. reflexivity.
  - destruct (stream_conclude_sink model_name p (Exc e) s1)
      as (r & t & -> & -> & Hs).
    unfold value_of, server_of, trace_of. cbn [fst snd]. repeat split.
    rewrite silent_app, Hs. reflexivity.
Qed.

(** X21.  A fragment that decodes to JSON but is not an object with a text
    (unlike a line that is not JSON at all) ends the call with a failure
    message: the text collected from the fragments before it is dropped. *)
Theorem streaming_bad_fragment (prompt model_name : str)
    (sink : option placeholder) (s s1 : server) (r : stream_response)
    (pre rest : list line) (chunk : pyval) :
  requests_post_stream (stream_chat_request prompt model_name) s = (Ok r, s1) ->
  ~ (400 <= stream_status r < 600) ->
  stream_lines r = pre ++ Line (Decoded chunk) :: rest ->
  forallb line_passes pre = true ->
  fragment_text (Line (Decoded chunk)) = None ->
  exists e,
    value_of (inference_streaming prompt model_name sink s)
    = Ok (PStr (CROSS ++ lit " Error: " ++ str_of_exn e))
    /\ match e with TypeError _ | AttributeError _ _ => True | _ => False end.
Proof.
  intros H1 Hst Hl Hp Hf.
  destruct (collect_bad_fragment chunk Hf) as (e & He & Hk).
  exists e. split; [| exact Hk].
  rewrite streaming_run, H1.
  destruct (Z.eqb_spec (stream_status r) 404) as [E | _]; [lia |].
  unfold stream_conclude, try_except, bind, lift.
  rewrite (stream_status_ok r Hst). unfold ret at 1. cbn beta iota.
  rewrite Hl, (collect_prefix sink pre _ [] s1 Hp), He.
  cbn beta iota.
  destruct e; try contradiction; reflexivity.
Qed.

(** X22.  When the iteration over the streamed lines ends with an
    exception, the text received so far is dropped and a failure message is
    returned.  A [ConnectionError] of requests, which is what the iteration
    raises for a read timeout, gives the message that the server is not
    running, not the timeout message; any other exception of requests, such
    as the one for a connection broken in the middle of the transfer, gives
    the generic message with the text of the exception. *)
Theorem streaming_interrupted (prompt model_name : str)
    (sink : option placeholder) (s s1 : server) (r : stream_response)
    (e : exn) :
  requests_post_stream (stream_chat_request prompt model_name) s = (Ok r, s1) ->
  ~ (400 <= stream_status r < 600) ->
  forallb line_passes (stream_lines r) = true ->
  stream_error r = Some e ->
  (forall detail,
      e = ConnectionError detail ->
      value_of (inference_streaming prompt model_name sink s)
      = Ok (PStr (CROSS ++ lit " Error: Model server is not running. Please start the model server.")))
  /\ (forall detail,
        e = RequestError detail ->
        value_of (inference_streaming prompt model_name sink s)
        = Ok (PStr (CROSS ++ lit " Error: " ++ str_of_exn e))).
Proof.
  intros H1 Hst Hp He.
  assert (Hrun : value_of (inference_streaming prompt model_name sink s)
                 = value_of (streaming_handler model_name e s1)).
  { rewrite streaming_run, H1.
    destruct (Z.eqb_spec (stream_status r) 404) as [E | _]; [lia |].
    unfold stream_conclude, try_except, bind, lift.
    rewrite (stream_status_ok r Hst). unfold ret at 1. cbn beta iota.
    rewrite (collect_passes sink _ [] s1 Hp), He.
    unfold raise. cbn beta iota.
    destruct (streaming_handler model_name e s1) as [[r0 s2] t].
    reflexivity. }
  rewrite Hrun. split; intros detail ->; reflexivity.
Qed.

Lemma names_of_all (items names : list pyval) :
  Forall2 (fun item name =>
             exists m, item = PDict m /\ dict_lookup m (lit "name") = Some name)
    items names ->
  names_of items = Ok names.
Proof.
  induction 1 as [| item name items names (m & -> & Hm) _ IH]; [reflexivity |].
  cbn [names_of]. unfold py_getitem. now rewrite Hm, IH.
Qed.

Lemma names_of_some_missing (items : list pyval) :
  Exists (fun item => forall m, item = PDict m ->
                                dict_lookup m (lit "name") = None) items ->
  exists e, names_of items = Exc e.
Proof.
  induction 1 as [item items Hbad | item items _ IH].
  - cbn [names_of]. unfold py_getitem.
    destruct item as [| b | n | f | str0 | l | m]; try (eexists; reflexivity).
    rewrite (Hbad m eq_refl). eexists; reflexivity.
  - cbn [names_of]. destruct (py_getitem item (lit "name")); [| eexists; reflexivity].
    destruct IH as [e ->]. eexists; reflexivity.
Qed.

(** X23.  The list of models is all or nothing.  From a 200 answer whose
    object lists the models, [load_available_models] returns the name of
    every entry, in order, when each entry is an object with a name; one
    entry without a name makes it return the empty list. *)
Theorem load_models_all_or_nothing (s s1 : server) (r : response)
    (d : list (str * pyval)) (items : list pyval) :
  get_tags s = (Ok r, s1) ->
  status_code r = 200 ->
  json_body r = Ok (PDict d) ->
  dict_lookup d (lit "models") = Some (PList items) ->
  (forall names,
      Forall2 (fun item name =>
                 exists m, item = PDict m
                           /\ dict_lookup m (lit "name") = Some name)
        items names ->
      load_available_models s = (names, s1))
  /\ (Exists (fun item => forall m, item = PDict m ->
                                    dict_lookup m (lit "name") = None) items ->
      load_available_models s = ([], s1)).
Proof.
  intros Hg Hst Hj Hm.
  assert (Hread : read_models r = names_of items).
  { unfold read_models. rewrite Hst, Hj. cbn [Z.eqb Pos.eqb].
    unfold py_get. rewrite Hm. reflexivity. }
  unfold load_available_models. rewrite Hg, Hread. split.
  - intros names Hall. now rewrite (names_of_all _ _ Hall).
  - intros Hbad. destruct (names_of_some_missing _ Hbad) as [e ->]. reflexivity.
Qed.

(** X24.  From the same server state, when [load_available_models] returns
    a model, [check_model_server] reports the server as running. *)
Theorem models_imply_running (s : server) :
  fst (load_available_models s) <> [] ->
  fst (fst (check_model_server s)) = true.
Proof.
  unfold load_available_models, check_model_server, read_models.
  destruct (get_tags s) as [[r | e] s1]; cbn [fst].
  - destruct (status_code r =? 200); [reflexivity |].
    cbn [fst]. intros H. now contradiction H.
  - intros H. now contradiction H.
Qed.

End StreamTheorems.

(* ===================================================================== *)
(** ** The further theorems at concrete inputs *)
(* ===================================================================== *)

Lemma inference_value_kinds_witness :
  is_failure (PStr (lit "A summary.")) = true
  \/ exists r d,
       ((exists s1,
            requests_post (Runtime := scripted)
              (chat_request (lit "p") (lit "m") 1000)
              [chat_ok (lit "A summary.")]
            = (Ok r, s1)
            /\ status_code r <> 404)
        \/ exists r1 s1 s2,
             requests_post (Runtime := scripted)
               (chat_request (lit "p") (lit "m") 1000)
               [chat_ok (lit "A summary.")]
             = (Ok r1, s1)
             /\ status_code r1 = 404
             /\ requests_post (Runtime := scripted)
                  (generate_request (lit "p") (lit "m") 1000) s1
                = (Ok r, s2))
       /\ ~ (400 <= status_code r < 600)
       /\ json_body r = Ok (PDict d)
       /\ match dict_lookup d (lit "message") with
          | Some msg =>
              exists m,
                msg = PDict m
                /\ PStr (lit "A summary.")
                   = match dict_lookup m (lit "content") with
                     | Some c => c
                     | None => PStr []
                     end
          | None =>
              PStr (lit "A summary.")
              = match dict_lookup d (lit "response") with
                | Some c => c
                | None => PStr []
                end
          end.
Proof.
  apply (inference_value_kinds (R := scripted) (lit "p") (lit "m") None 1000
           [chat_ok (lit "A summary.")]).
  vm_compute. reflexivity.
Defined.

Lemma inference_single_post_witness :
  let run := inference (R := scripted) (lit "p") (lit "m") None 1000
               [server_error; generate_ok (lit "unused")] in
  posts (trace_of run) = [Post (chat_request (lit "p") (lit "m") 1000)]
  /\ server_of run = [generate_ok (lit "unused")]
  /\ value_of run
     = value_of (conclude (R := scripted) (lit "m") 1000 server_error
                   [generate_ok (lit "unused")]).
Proof.
  apply (inference_single_post (R := scripted) (lit "p") (lit "m") None 1000
           [server_error; generate_ok (lit "unused")]
           [generate_ok (lit "unused")] server_error).
  - reflexivity.
  - intros r1 E. injection E as <-. cbn. lia.
Defined.

Lemma inference_model_not_found_witness :
  value_of (inference (R := scripted) (lit "p") (lit "m") None 1000
              [not_found; not_found])
  = Ok (PStr (CROSS ++ lit " Error: Model '" ++ lit "m"
              ++ lit "' not found in model repository.")).
Proof.
  eapply (inference_model_not_found (R := scripted) (lit "p") (lit "m") None 1000
            [not_found; not_found] [not_found] []).
  - reflexivity.
  - reflexivity.
  - reflexivity.
  - reflexivity.
Defined.

Lemma inference_http_error_witness :
  value_of (inference (R := scripted) (lit "p") (lit "m") None 1000
              [server_error])
  = Ok (PStr (CROSS ++ lit " Error: "
              ++ str_of_exn (Runtime := scripted) (HTTPError (Some 500) []))).
Proof.
  eapply (inference_http_error (R := scripted) (lit "p") (lit "m") None 1000
            [server_error] []
            {| status_code := 500;
               json_body := Exc (RequestError (lit "no JSON")) |}).
  - reflexivity.
  - cbn. lia.
  - cbn. lia.
Defined.

Lemma inference_missing_keys_witness :
  value_of (inference (R := scripted) (lit "p") (lit "m") None 1000
              [chat_blank]) = Ok (PStr [])
  /\ is_failure (PStr []) = false.
Proof.
  eapply (inference_missing_keys (R := scripted) (lit "p") (lit "m") None 1000
            [chat_blank] []).
  - reflexivity.
  - cbn. lia.
  - reflexivity.
  - left. split; reflexivity.
Defined.

Lemma generate_summary_unknown_length_witness :
  generate_summary (R := scripted) (lit "Some text.") (lit "tiny") (lit "m")
    None [chat_ok (lit "unused")]
  = (Exc (KeyError (lit "tiny")), [chat_ok (lit "unused")], []).
Proof.
  apply (generate_summary_unknown_length (R := scripted)).
  intros [H | [H | [H | []]]]; vm_compute in H; discriminate.
Defined.

Lemma faq_success_unmarked_witness :
  value_of (generate_faq_smart (R := scripted) two_sections 6 (lit "m") None
              [chat_ok (lit "Q1"); chat_ok (lit "Q2")])
  = Ok (PStr (combined [lit "Q1"; lit "Q2"]))
  /\ startswith (combined [lit "Q1"; lit "Q2"]) CROSS = false.
Proof.
  apply (faq_success_unmarked (R := scripted) two_sections 6 (lit "m") None
           [chat_ok (lit "Q1"); chat_ok (lit "Q2")] []).
  - vm_compute. reflexivity.
  - assert (E : chunk_text two_sections 2500
                = [letters "a" 2000 ++ [DOT]; letters "b" 2000 ++ [DOT]])
      by (vm_compute; reflexivity).
    rewrite E.
    eapply all_succeed_cons; [vm_compute; reflexivity | reflexivity |].
    eapply all_succeed_cons; [vm_compute; reflexivity | reflexivity |].
    apply all_succeed_nil.
Defined.

Lemma faq_long_no_steps_witness :
  Forall (fun e => is_step e = false)
    (trace_of (generate_faq_smart (R := scripted) two_sections 6 (lit "m")
                 (Some (Placeholder 0)) [chat_ok (lit "Q1")]))
  /\ sleep_total
       (trace_of (generate_faq_smart (R := scripted) two_sections 6 (lit "m")
                    (Some (Placeholder 0)) [chat_ok (lit "Q1")])) = 0.
Proof.
  apply (faq_long_no_steps (R := scripted)).
  vm_compute. reflexivity.
Defined.

Lemma faq_long_clears_sink_witness :
  exists t',
    trace_of (generate_faq_smart (R := scripted) two_sections 6 (lit "m")
                (Some (Placeholder 0)) [chat_ok (lit "Q1")])
    = t' ++ [Empty (Placeholder 0)].
Proof.
  eapply (faq_long_clears_sink (R := scripted) two_sections 6 (lit "m")
            (Placeholder 0) [chat_ok (lit "Q1")]).
  - vm_compute. reflexivity.
  - vm_compute. reflexivity.
Defined.

Lemma faq_long_section_messages_witness :
  let run := generate_faq_smart (R := scripted) two_sections 6 (lit "m")
               (Some (Placeholder 0)) [chat_ok (lit "Q1"); chat_ok (lit "Q2")] in
  filter is_info (trace_of run)
  = map (fun i =>
           Info (Placeholder 0)
             ([128221%N] ++ lit " Processing section "
              ++ str_of_int (Z.of_nat i + 1) ++ lit "/"
              ++ str_of_int (len (chunk_text two_sections 2500))
              ++ lit "... This may take a while for long texts."))
      (seq 0 (List.length (calls (trace_of run)))).
Proof.
  apply (faq_long_section_messages (R := scripted)).
  vm_compute. reflexivity.
Defined.

(** The section messages of a text of two chunks, as they are shown. *)
Example section_messages_of_two :
  filter is_info
    (trace_of (generate_faq_smart (R := scripted) two_sections 6 (lit "m")
                 (Some (Placeholder 0)) [chat_ok (lit "Q1"); chat_ok (lit "Q2")]))
  = [ Info (Placeholder 0)
        ([128221%N]
         ++ lit " Processing section 1/2... This may take a while for long texts.");
      Info (Placeholder 0)
        ([128221%N]
         ++ lit " Processing section 2/2... This may take a while for long texts.") ].
Proof. vm_compute. reflexivity. Qed.

Lemma faq_questions_total_witness :
  let run := generate_faq_smart (R := scripted) three_sections 6 (lit "m") None
               [chat_ok (lit "Q1"); chat_ok (lit "Q2"); chat_ok (lit "Q3")] in
  let q := Z.max 2 (6 / len (chunk_text three_sections 2500)) in
  let c := len (calls (trace_of run)) in
  calls (trace_of run)
  = map (fun chunk => Call (chunk_prompt q chunk) (lit "m") 1000)
      (chunk_text three_sections 2500)
  /\ (forall chunk,
        contains (chunk_prompt q chunk)
          (lit "generate " ++ str_of_int q
           ++ lit " frequently asked questions (FAQ)") = true)
  /\ c = len (chunk_text three_sections 2500)
  /\ 2 <= q
  /\ 6 - c < c * q
  /\ (2 * c <= 6 -> c * q <= 6)
  /\ (6 < 2 * c -> c * q = 2 * c).
Proof.
  apply (faq_questions_total (R := scripted) three_sections 6 (lit "m") None
           [chat_ok (lit "Q1"); chat_ok (lit "Q2"); chat_ok (lit "Q3")] []
           [lit "Q1"; lit "Q2"; lit "Q3"]).
  - vm_compute. reflexivity.
  - assert (E : chunk_text three_sections 2500
                = [letters "a" 1999 ++ [DOT]; letters "b" 1999 ++ [DOT];
                   letters "c" 1999 ++ [DOT; DOT]])
      by (vm_compute; reflexivity).
    assert (H : all_succeed (R := scripted) 2 (lit "m")
                  [letters "a" 1999 ++ [DOT]; letters "b" 1999 ++ [DOT];
                   letters "c" 1999 ++ [DOT; DOT]]
                  [chat_ok (lit "Q1"); chat_ok (lit "Q2"); chat_ok (lit "Q3")]
                  [lit "Q1"; lit "Q2"; lit "Q3"] []).
    { eapply all_succeed_cons; [vm_compute; reflexivity | reflexivity |].
      eapply all_succeed_cons; [vm_compute; reflexivity | reflexivity |].
      eapply all_succeed_cons; [vm_compute; reflexivity | reflexivity |].
      apply all_succeed_nil. }
    rewrite E. exact H.
Defined.

Lemma streaming_collects_witness :
  let run := inference_streaming (R := scripted_more) (lit "p") (lit "m") None
               ([], [stream_ok hello_lines None]) in
  value_of run = Ok (PStr (concat (map line_text hello_lines)))
  /\ server_of run = ([], [])
  /\ posts (trace_of run) = [Post (stream_chat_request (lit "p") (lit "m"))].
Proof.
  apply (streaming_collects (R := scripted_more) (lit "p") (lit "m") None
           ([], [stream_ok hello_lines None]) ([], [])
           {| stream_status := 200; stream_lines := hello_lines;
              stream_error := None |}).
  - reflexivity.
  - cbn. lia.
  - reflexivity.
  - reflexivity.
Defined.

Lemma streaming_shows_progress_witness :
  let run := inference_streaming (R := scripted_more) (lit "p") (lit "m")
               (Some (Placeholder 0)) ([], [stream_ok hello_lines None]) in
  trace_of run
  = Post (stream_chat_request (lit "p") (lit "m"))
    :: map (Markdown (Placeholder 0)) (running_texts [] hello_lines)
  /\ value_of run = Ok (PStr (last (running_texts [] hello_lines) [])).
Proof.
  apply (streaming_shows_progress (R := scripted_more) (lit "p") (lit "m")
           (Placeholder 0)
           ([], [stream_ok hello_lines None]) ([], [])
           {| stream_status := 200; stream_lines := hello_lines;
              stream_error := None |}).
  - reflexivity.
  - cbn. lia.
  - reflexivity.
  - reflexivity.
Defined.

Lemma streaming_bad_fragment_witness :
  exists e,
    value_of (inference_streaming (R := scripted_more) (lit "p") (lit "m") None
                ([], [stream_ok [chat_fragment (lit "Hel");
                                 Line (Decoded (PInt 5));
                                 chat_fragment (lit "lo")] None]))
    = Ok (PStr (CROSS ++ lit " Error: "
                ++ str_of_exn (Runtime := scripted_more) e))
    /\ match e with TypeError _ | AttributeError _ _ => True | _ => False end.
Proof.
  eapply (streaming_bad_fragment (R := scripted_more) (lit "p") (lit "m") None
            ([], [stream_ok [chat_fragment (lit "Hel");
                             Line (Decoded (PInt 5));
                             chat_fragment (lit "lo")] None]) ([], [])
            {| stream_status := 200;
               stream_lines := [chat_fragment (lit "Hel");
                                Line (Decoded (PInt 5));
                                chat_fragment (lit "lo")];
               stream_error := None |}
            [chat_fragment (lit "Hel")] [chat_fragment (lit "lo")] (PInt 5)).
  - reflexivity.
  - cbn. lia.
  - reflexivity.
  - reflexivity.
  - reflexivity.
Defined.

Lemma streaming_interrupted_witness :
  (forall detail,
      ConnectionError (lit "read timed out") = ConnectionError detail ->
      value_of (inference_streaming (R := scripted_more) (lit "p") (lit "m") None
                  ([], [stream_ok hello_lines
                          (Some (ConnectionError (lit "read timed out")))]))
      = Ok (PStr (CROSS ++ lit " Error: Model server is not running. Please start the model server.")))
  /\ (forall detail,
        ConnectionError (lit "read timed out") = RequestError detail ->
        value_of (inference_streaming (R := scripted_more) (lit "p") (lit "m")
                    None
                    ([], [stream_ok hello_lines
                            (Some (ConnectionError (lit "read timed out")))]))
        = Ok (PStr (CROSS ++ lit " Error: "
                    ++ str_of_exn (Runtime := scripted_more)
                         (ConnectionError (lit "read timed out"))))).
Proof.
  eapply (streaming_interrupted (R := scripted_more) (lit "p") (lit "m") None
            ([], [stream_ok hello_lines
                    (Some (ConnectionError (lit "read timed out")))])
            ([], [])
            {| stream_status := 200; stream_lines := hello_lines;
               stream_error := Some (ConnectionError (lit "read timed out")) |}
            (ConnectionError (lit "read timed out"))).
  - reflexivity.
  - cbn. lia.
  - reflexivity.
  - reflexivity.
Defined.

(** A connection broken in the middle of the transfer: the generic
    message, although two fragments had arrived. *)
Example streaming_broken_transfer :
  value_of (inference_streaming (R := scripted_more) (lit "p") (lit "m") None
              ([], [stream_ok hello_lines
                      (Some (RequestError (lit "Connection broken")))]))
  = Ok (PStr (CROSS ++ lit " Error: Connection broken")).
Proof. vm_compute. reflexivity. Qed.

Lemma load_models_all_or_nothing_witness :
  load_available_models (R := scripted_more)
    ([tags_ok [lit "llama"; lit "phi"]], [])
  = ([PStr (lit "llama"); PStr (lit "phi")], ([], [])).
Proof.
  edestruct (load_models_all_or_nothing (R := scripted_more)
               ([tags_ok [lit "llama"; lit "phi"]], []) ([], []))
    as [Hall _].
  - reflexivity.
  - reflexivity.
  - reflexivity.
  - reflexivity.
  - apply Hall. repeat constructor; eexists; split; reflexivity.
Defined.

Lemma models_imply_running_witness :
  fst (fst (check_model_server (R := scripted_more)
              ([tags_ok [lit "llama"; lit "phi"]], []))) = true.
Proof.
  apply (models_imply_running (R := scripted_more)).
  vm_compute. discriminate.
Defined.
